(** * tmux-tui: bookmark store and bookmark resolver

    A shallow embedding of [src/types/bookmark.ts], [src/types/tmux.ts],
    [src/tmux/adapter.ts] (the point lookups, the line parsers, the current
    context and the switch), [src/cli/resolver.ts], [src/storage/store.ts]
    and [src/cli/commands.ts] (add, remove, rename), followed by the
    properties of the resolver, of the store, of the adapter and of the
    command layer.

    Conventions of the embedding:
    - an optional field [f?: T] is an [option T]; [undefined] is [None];
    - a JavaScript [number] that holds a slot, an index, a version or a
      timestamp is a [Z] (the command layer produces slots with
      [Number.parseInt]);
    - [if (s)] on an optional string is JavaScript truthiness: it fails for
      [undefined] and for the empty string (see [truthy]);
    - the adapter is a snapshot ([TmuxState]); its [find...] methods are
      [Array.prototype.find] over the lists of the snapshot;
    - the bookmarks file, the clock and the UUID generator are explicit
      ([Disk], [Env]); the asynchronous store methods are computations in a
      state-and-error monad over the disk. *)

From stdpp Require Import base option list strings.
From Stdlib Require Import ZArith Lia.

Local Open Scope string_scope.
Local Open Scope list_scope.
Local Open Scope Z_scope.

(** ** Types ([src/types/tmux.ts], [src/types/bookmark.ts]) *)

Module TmuxSession.
Record t := mk {
  sessionId : string;
  sessionName : string;
  windowCount : Z;
  attached : bool;
  created : Z
}.
End TmuxSession.

Module TmuxWindow.
Record t := mk {
  windowId : string;
  windowIndex : Z;
  windowName : string;
  sessionId : string;
  sessionName : string;
  active : bool;
  paneCount : Z
}.
End TmuxWindow.

Module TmuxPane.
Record t := mk {
  paneId : string;
  paneIndex : Z;
  windowId : string;
  windowIndex : Z;
  windowName : string;
  sessionId : string;
  sessionName : string;
  active : bool;
  cwd : string;
  currentCommand : string
}.
End TmuxPane.

(** Full tmux state snapshot. *)
Record TmuxState := {
  sessions : list TmuxSession.t;
  windows : list TmuxWindow.t;
  panes : list TmuxPane.t
}.

(** Target for jump operations. *)
Record TmuxTarget := {
  sessionId : option string;
  windowId : option string;
  paneId : option string
}.

(** Fallback identifiers when IDs do not resolve. *)
Record TmuxFallback := {
  sessionName : option string;
  windowIndex : option Z;
  windowName : option string;
  paneIndex : option Z
}.

Inductive BookmarkKind := KSession | KWindow | KPane.

Record BookmarkMeta := {
  cwd : option string;
  host : option string;
  lastUsed : Z;
  createdAt : Z
}.

Record Bookmark := {
  id : string;
  label : string;
  kind : BookmarkKind;
  target : TmuxTarget;
  fallback : TmuxFallback;
  meta : BookmarkMeta
}.

(** ["id" | "fallback" | "cwd"] *)
Inductive Method := MId | MFallback | MCwd.

Definition method_tag (m : Method) : string :=
  match m with
  | MId => "id"
  | MFallback => "fallback"
  | MCwd => "cwd"
  end.

Inductive BookmarkResolution :=
| Resolved (method : Method) (tgt : TmuxTarget)
| Unresolved (reason : string).

Record BookmarksFile := {
  version : Z;
  items : list Bookmark
}.

Definition CURRENT_SCHEMA_VERSION : Z := 1.

#[global] Instance BookmarkKind_eq_dec : EqDecision BookmarkKind.
Proof. solve_decision. Defined.

(** ** JavaScript helpers *)

(** [if (s)] for [s : string | undefined]: the string when it is set and
    not empty. *)
Definition truthy (s : option string) : option string :=
  match s with
  | Some v => if String.eqb v "" then None else Some v
  | None => None
  end.

(** [arr.find(p)]: the first element that satisfies [p]; [===] on strings
    and numbers is equality. *)
Definition find {A} (P : A -> Prop) `{!forall x, Decision (P x)} (arr : list A)
  : option A :=
  snd <$> list_find P arr.

(** [arr.findIndex(p)]: the index of that element ([None] for [-1]). *)
Definition findIndex {A} (P : A -> Prop) `{!forall x, Decision (P x)} (arr : list A)
  : option nat :=
  fst <$> list_find P arr.

(** [a ?? b] *)
Definition nullish {A} (a b : option A) : option A :=
  match a with
  | Some v => Some v
  | None => b
  end.

(** ** The adapter's point lookups ([src/tmux/adapter.ts]) *)

Module TmuxAdapter.

Definition listSessions (st : TmuxState) := sessions st.
Definition listWindows (st : TmuxState) := windows st.
Definition listPanes (st : TmuxState) := panes st.

Definition findSessionById (st : TmuxState) (sessionId : string) :=
  find (fun s => TmuxSession.sessionId s = sessionId) (listSessions st).

Definition findWindowById (st : TmuxState) (windowId : string) :=
  find (fun w => TmuxWindow.windowId w = windowId) (listWindows st).

Definition findPaneById (st : TmuxState) (paneId : string) :=
  find (fun p => TmuxPane.paneId p = paneId) (listPanes st).

Definition findSessionByName (st : TmuxState) (name : string) :=
  find (fun s => TmuxSession.sessionName s = name) (listSessions st).

Definition findWindowByName (st : TmuxState) (sessionId windowName : string) :=
  find (fun w => TmuxWindow.sessionId w = sessionId
                 /\ TmuxWindow.windowName w = windowName)
       (listWindows st).

Definition findWindowByIndex (st : TmuxState) (sessionId : string) (windowIndex : Z) :=
  find (fun w => TmuxWindow.sessionId w = sessionId
                 /\ TmuxWindow.windowIndex w = windowIndex)
       (listWindows st).

End TmuxAdapter.

(** ** The resolver ([src/cli/resolver.ts]) *)

Definition mkTarget (s w p : option string) : TmuxTarget :=
  {| sessionId := s; windowId := w; paneId := p |}.

(** Try to resolve using stable IDs. *)
Definition tryResolveById (bookmark : Bookmark) (adapter : TmuxState)
  : option TmuxTarget :=
  let tg := target bookmark in
  match kind bookmark with
  | KSession =>
      match truthy (sessionId tg) with
      | None => None
      | Some sid =>
          match TmuxAdapter.findSessionById adapter sid with
          | Some session => Some (mkTarget (Some (TmuxSession.sessionId session)) None None)
          | None => None
          end
      end
  | KWindow =>
      match truthy (windowId tg) with
      | None => None
      | Some wid =>
          match TmuxAdapter.findWindowById adapter wid with
          | Some window =>
              Some (mkTarget (Some (TmuxWindow.sessionId window))
                             (Some (TmuxWindow.windowId window)) None)
          | None => None
          end
      end
  | KPane =>
      match truthy (paneId tg) with
      | None => None
      | Some pid =>
          match TmuxAdapter.findPaneById adapter pid with
          | Some pane =>
              Some (mkTarget (Some (TmuxPane.sessionId pane))
                             (Some (TmuxPane.windowId pane))
                             (Some (TmuxPane.paneId pane)))
          | None => None
          end
      end
  end.

(** The session step of the fallback tier: [session] after
    [if (fallback.sessionName) session = findSessionByName(...)]. *)
Definition fallbackSession (fb : TmuxFallback) (adapter : TmuxState)
  : option TmuxSession.t :=
  match truthy (sessionName fb) with
  | Some name => TmuxAdapter.findSessionByName adapter name
  | None => None
  end.

(** The name step of the window search: [window] after
    [if (fallback.windowName) window = findWindowByName(...)]. *)
Definition windowByName (fb : TmuxFallback) (adapter : TmuxState)
  (session : TmuxSession.t) : option TmuxWindow.t :=
  match truthy (windowName fb) with
  | Some name =>
      TmuxAdapter.findWindowByName adapter (TmuxSession.sessionId session) name
  | None => None
  end.

(** The index step: runs only when [window] is still null and
    [fallback.windowIndex !== undefined]. *)
Definition windowByIndex (fb : TmuxFallback) (adapter : TmuxState)
  (session : TmuxSession.t) : option TmuxWindow.t :=
  match windowIndex fb with
  | Some i =>
      TmuxAdapter.findWindowByIndex adapter (TmuxSession.sessionId session) i
  | None => None
  end.

(** Try to resolve using fallback identifiers (names/indexes). *)
Definition tryResolveByFallback (bookmark : Bookmark) (adapter : TmuxState)
  : option TmuxTarget :=
  let fb := fallback bookmark in
  let k := kind bookmark in
  match fallbackSession fb adapter with
  | None =>
      (* [if (!session && kind === "session") return null] for a session
         bookmark, [if (!session) return null] for the other kinds *)
      None
  | Some session =>
      if decide (k = KSession) then
        (* [if (kind === "session" && session)] *)
        Some (mkTarget (Some (TmuxSession.sessionId session)) None None)
      else
        (* by name first, by index if [!window] *)
        let window :=
          match windowByName fb adapter session with
          | Some w => Some w
          | None => windowByIndex fb adapter session
          end in
        match window with
        | None =>
            (* [if (!window && (kind === "window" || kind === "pane"))] *)
            None
        | Some w =>
            match k with
            | KWindow | KPane =>
                Some (mkTarget (Some (TmuxSession.sessionId session))
                               (Some (TmuxWindow.windowId w)) None)
            | KSession => None
            end
        end
  end.

(** Try to resolve by finding a pane with matching cwd. *)
Definition tryResolveByCwd (cwd : string) (adapter : TmuxState)
  : option TmuxTarget :=
  match find (fun p => TmuxPane.cwd p = cwd) (TmuxAdapter.listPanes adapter) with
  | Some m =>
      Some (mkTarget (Some (TmuxPane.sessionId m))
                     (Some (TmuxPane.windowId m))
                     (Some (TmuxPane.paneId m)))
  | None => None
  end.

Definition unresolvedReason : string :=
  "Could not resolve bookmark to a valid tmux target".

(** Resolve a bookmark to a valid tmux target. *)
Definition resolveBookmark (bookmark : Bookmark) (adapter : TmuxState)
  : BookmarkResolution :=
  match tryResolveById bookmark adapter with
  | Some idResult => Resolved MId idResult
  | None =>
      match tryResolveByFallback bookmark adapter with
      | Some fallbackResult => Resolved MFallback fallbackResult
      | None =>
          match truthy (cwd (meta bookmark)) with
          | Some c =>
              match tryResolveByCwd c adapter with
              | Some cwdResult => Resolved MCwd cwdResult
              | None => Unresolved unresolvedReason
              end
          | None => Unresolved unresolvedReason
          end
      end
  end.

(** ** The store ([src/storage/store.ts]) *)

(** What [Bun.file(path)] finds: no file, a file whose JSON does not parse
    ([file.json()] throws a [SyntaxError]), a file that cannot be read (any
    other exception), or a parsed envelope. *)
Inductive FileContent :=
| Missing
| Corrupt
| Unreadable
| Json (content : BookmarksFile).

(** The bookmarks file and whether the directory accepts the temporary file
    and its rename. *)
Record Disk := {
  file : FileContent;
  writable : bool
}.

(** What the process supplies: [crypto.randomUUID()], the two readings of
    [now()] taken for [lastUsed] and [createdAt], and the environment
    variables [HOSTNAME] and [HOST]. *)
Record Env := {
  randomUUID : string;
  nowLastUsed : Z;
  nowCreatedAt : Z;
  HOSTNAME : option string;
  HOST : option string
}.

Inductive StoreError := PersistenceFailure.

Definition Result (A : Type) : Type := (StoreError + A)%type.

(** An asynchronous store method: it runs against the disk, and either
    returns or throws; the disk survives both. *)
Definition Store (A : Type) : Type := Disk -> Result A * Disk.

Definition ret {A} (a : A) : Store A := fun d => (inr a, d).

Definition throw {A} (e : StoreError) : Store A := fun d => (inl e, d).

Definition bind {A B} (m : Store A) (k : A -> Store B) : Store B :=
  fun d =>
    match m d with
    | (inr a, d') => k a d'
    | (inl e, d') => (inl e, d')
    end.

Notation "x <- m ;; k" := (bind m (fun x => k))
  (at level 100, m at next level, right associativity).
Notation "m ;;; k" := (bind m (fun _ => k))
  (at level 100, right associativity).

(** [arr.splice(start, deleteCount, ...ins)] for [0 <= start]: the removed
    elements and the array afterwards. *)
Definition splice {A} (arr : list A) (start deleteCount : nat) (ins : list A)
  : list A * list A :=
  (take deleteCount (drop start arr),
   take start arr ++ ins ++ drop (start + deleteCount) arr).

(** [arr.push(x)] *)
Definition push {A} (arr : list A) (x : A) : list A := arr ++ [x].

Definition setLabel (b : Bookmark) (newLabel : string) : Bookmark :=
  {| id := id b; label := newLabel; kind := kind b; target := target b;
     fallback := fallback b; meta := meta b |}.

Definition setLastUsed (b : Bookmark) (t : Z) : Bookmark :=
  {| id := id b; label := label b; kind := kind b; target := target b;
     fallback := fallback b;
     meta := {| cwd := cwd (meta b); host := host (meta b);
                lastUsed := t; createdAt := createdAt (meta b) |} |}.

Definition setItems (data : BookmarksFile) (l : list Bookmark) : BookmarksFile :=
  {| version := version data; items := l |}.

Module BookmarkStore.

Definition emptyFile : BookmarksFile :=
  {| version := CURRENT_SCHEMA_VERSION; items := [] |}.

(** Migrate bookmarks file to current schema version. *)
Definition migrate (data : BookmarksFile) : BookmarksFile :=
  if decide (version data = CURRENT_SCHEMA_VERSION) then data
  else {| version := CURRENT_SCHEMA_VERSION; items := items data |}.

(** Read bookmarks file, returning empty state if it does not exist. *)
Definition read : Store BookmarksFile :=
  fun d =>
    match file d with
    | Missing => (inr emptyFile, d)
    | Json content => (inr (migrate content), d)
    | Corrupt => (inr emptyFile, d)
    | Unreadable => (inl PersistenceFailure, d)
    end.

(** Write bookmarks file atomically: on failure the temporary file is
    removed and the file keeps its previous content. *)
Definition write (data : BookmarksFile) : Store unit :=
  fun d =>
    if writable d then (inr tt, {| file := Json data; writable := writable d |})
    else (inl PersistenceFailure, d).

(** [list()] *)
Definition list_ : Store (list Bookmark) :=
  data <- read ;;
  ret (items data).

Definition get (i : string) : Store (option Bookmark) :=
  data <- read ;;
  ret (find (fun b => id b = i) (items data)).

Definition getByLabel (l : string) : Store (option Bookmark) :=
  data <- read ;;
  ret (find (fun b => label b = l) (items data)).

(** Get a bookmark by slot index (1-based). *)
Definition getBySlot (slot : Z) : Store (option Bookmark) :=
  data <- read ;;
  let index := slot - 1 in
  if decide (index < 0 \/ index >= Z.of_nat (length (items data))) then ret None
  else ret (items data !! Z.to_nat index).

(** The bookmark that [add] and [replace] mint. *)
Definition mint (env : Env) (l : string) (k : BookmarkKind) (tg : TmuxTarget)
  (fb : TmuxFallback) (c : option string) : Bookmark :=
  {| id := randomUUID env;
     label := l;
     kind := k;
     target := tg;
     fallback := fb;
     meta := {| cwd := c;
                host := nullish (HOSTNAME env) (HOST env);
                lastUsed := nowLastUsed env;
                createdAt := nowCreatedAt env |} |}.

Definition add (env : Env) (l : string) (k : BookmarkKind) (tg : TmuxTarget)
  (fb : TmuxFallback) (c : option string) : Store Bookmark :=
  data <- read ;;
  let bookmark := mint env l k tg fb c in
  write (setItems data (push (items data) bookmark)) ;;;
  ret bookmark.

Definition remove (i : string) : Store bool :=
  data <- read ;;
  match findIndex (fun b => id b = i) (items data) with
  | None => ret false
  | Some index =>
      write (setItems data (snd (splice (items data) index 1 []))) ;;;
      ret true
  end.

(** Remove a bookmark by slot index (1-based). *)
Definition removeBySlot (slot : Z) : Store bool :=
  data <- read ;;
  let index := slot - 1 in
  if decide (index < 0 \/ index >= Z.of_nat (length (items data))) then ret false
  else
    write (setItems data (snd (splice (items data) (Z.to_nat index) 1 []))) ;;;
    ret true.

(** Update a bookmark's label: [find] returns the array's own element, so
    the assignment changes the array at the position of the first match. *)
Definition rename (i : string) (newLabel : string) : Store bool :=
  data <- read ;;
  match list_find (fun b => id b = i) (items data) with
  | None => ret false
  | Some (index, bookmark) =>
      write (setItems data (<[index := setLabel bookmark newLabel]> (items data))) ;;;
      ret true
  end.

(** Replace a bookmark at a slot index (1-based). The [while] loop of the
    source returns in its first iteration: it is one [push]. *)
Definition replace (env : Env) (slot : Z) (l : string) (k : BookmarkKind)
  (tg : TmuxTarget) (fb : TmuxFallback) (c : option string)
  : Store (option Bookmark) :=
  data <- read ;;
  let index := slot - 1 in
  if decide (index < 0) then ret None
  else
    let bookmark := mint env l k tg fb c in
    if decide (Z.of_nat (length (items data)) <= index) then
      write (setItems data (push (items data) bookmark)) ;;;
      ret (Some bookmark)
    else
      write (setItems data (<[Z.to_nat index := bookmark]> (items data))) ;;;
      ret (Some bookmark).

(** Update last used timestamp. *)
Definition touch (env : Env) (i : string) : Store unit :=
  data <- read ;;
  match list_find (fun b => id b = i) (items data) with
  | Some (index, bookmark) =>
      write (setItems data (<[index := setLastUsed bookmark (nowLastUsed env)]> (items data)))
  | None => ret tt
  end.

(** Reorder bookmarks by moving a bookmark from one slot to another. *)
Definition move (fromSlot toSlot : Z) : Store bool :=
  data <- read ;;
  let fromIndex := fromSlot - 1 in
  let toIndex := toSlot - 1 in
  if decide (fromIndex < 0 \/ fromIndex >= Z.of_nat (length (items data))
             \/ toIndex < 0 \/ toIndex >= Z.of_nat (length (items data)))
  then ret false
  else
    let '(removed, rest) := splice (items data) (Z.to_nat fromIndex) 1 [] in
    match removed with
    | [] => ret false
    | bookmark :: _ =>
        write (setItems data (snd (splice rest (Z.to_nat toIndex) 0 [bookmark]))) ;;;
        ret true
    end.

End BookmarkStore.

(** ** Specification-level predicates: the resolver *)

(** The fallback names of a bookmark match a live entity: its recorded
    session name is the name of a live session and, for a window or pane
    bookmark, its recorded window name is the name of a window of that
    session. With [nonEmpty], the recorded names are moreover not empty. *)
Definition fallbackNamesMatch (nonEmpty : bool) (b : Bookmark) (st : TmuxState)
  (s : TmuxSession.t) (w : option TmuxWindow.t) : Prop :=
  exists n,
    sessionName (fallback b) = Some n /\
    (nonEmpty = true -> n <> "") /\
    TmuxAdapter.findSessionByName st n = Some s /\
    match kind b with
    | KSession => w = None
    | KWindow | KPane =>
        exists wn w',
          w = Some w' /\
          windowName (fallback b) = Some wn /\
          (nonEmpty = true -> wn <> "") /\
          TmuxAdapter.findWindowByName st (TmuxSession.sessionId s) wn = Some w'
    end.

(** The target the fallback tier builds from a session and a window. *)
Definition fallbackTarget (s : TmuxSession.t) (w : option TmuxWindow.t) : TmuxTarget :=
  mkTarget (Some (TmuxSession.sessionId s)) (TmuxWindow.windowId <$> w) None.

(** No live session carries the recorded session name (absent and empty
    names match nothing). *)
Definition noSessionMatch (fb : TmuxFallback) (st : TmuxState) : Prop :=
  match sessionName fb with
  | None => True
  | Some n => n = "" \/ TmuxAdapter.findSessionByName st n = None
  end.

(** The lookup by window name gives nothing. *)
Definition nameLookupFails (fb : TmuxFallback) (st : TmuxState) (s : TmuxSession.t) : Prop :=
  match windowName fb with
  | None => True
  | Some n =>
      n = "" \/ TmuxAdapter.findWindowByName st (TmuxSession.sessionId s) n = None
  end.

(** The lookup by window index gives nothing. *)
Definition indexLookupFails (fb : TmuxFallback) (st : TmuxState) (s : TmuxSession.t) : Prop :=
  match windowIndex fb with
  | None => True
  | Some i => TmuxAdapter.findWindowByIndex st (TmuxSession.sessionId s) i = None
  end.

(** ** Specification-level predicates: the store *)

(** The array after the element [x] at index [f] was taken out and put
    back at index [t]. *)
Definition moved {A} (l : list A) (f t : nat) (x : A) : list A :=
  take t (delete f l) ++ x :: drop t (delete f l).

(** ** Concrete hierarchies and bookmarks *)

Module Sample.

Definition session (sid name : string) : TmuxSession.t :=
  TmuxSession.mk sid name 1 true 0.

Definition window (wid : string) (idx : Z) (name sid sname : string) : TmuxWindow.t :=
  TmuxWindow.mk wid idx name sid sname false 1.

Definition pane (pid wid : string) (idx : Z) (wname sid sname dir : string) : TmuxPane.t :=
  TmuxPane.mk pid 0 wid idx wname sid sname true dir "zsh".

Definition noFallback : TmuxFallback :=
  {| sessionName := None; windowIndex := None; windowName := None; paneIndex := None |}.

Definition bookmark (i l : string) (k : BookmarkKind) (tg : TmuxTarget)
  (fb : TmuxFallback) (c : option string) : Bookmark :=
  {| id := i; label := l; kind := k; target := tg; fallback := fb;
     meta := {| cwd := c; host := None; lastUsed := 100; createdAt := 100 |} |}.

(** Session ["work"] is live as [$7]; the bookmark still names [$1]. *)
Definition workState : TmuxState :=
  {| sessions := [session "$7" "work"];
     windows := [window "@4" 0 "api" "$7" "work"];
     panes := [pane "%9" "@4" 0 "api" "$7" "work" "/srv/api"] |}.

Definition workBookmark : Bookmark :=
  bookmark "b-1" "work" KSession (mkTarget (Some "$1") None None)
    {| sessionName := Some "work"; windowIndex := None; windowName := None;
       paneIndex := None |}
    None.

(** A window whose name is the empty string, moved from index 3 to index
    0 and, after a server restart, under a new id; another window sits in
    the bookmark's directory. *)
Definition blankState : TmuxState :=
  {| sessions := [session "$1" "work"];
     windows := [window "@1" 0 "" "$1" "work"; window "@2" 1 "logs" "$1" "work"];
     panes := [pane "%1" "@1" 0 "" "$1" "work" "/srv";
               pane "%2" "@2" 1 "logs" "$1" "work" "/home/user/project"] |}.

Definition blankBookmark : Bookmark :=
  bookmark "b-2" "scratch" KWindow (mkTarget (Some "$0") (Some "@9") None)
    {| sessionName := Some "work"; windowIndex := Some 3; windowName := Some "";
       paneIndex := Some 0 |}
    (Some "/home/user/project").

(** The same window, for a bookmark whose recorded index now belongs to
    the window ["logs"]. *)
Definition blankBookmarkAt1 : Bookmark :=
  bookmark "b-3" "scratch" KPane (mkTarget (Some "$0") (Some "@9") (Some "%9"))
    {| sessionName := Some "work"; windowIndex := Some 1; windowName := Some "";
       paneIndex := Some 0 |}
    None.

(** A pane bookmark whose window ["api"] is live under a new id and at
    another index. *)
Definition apiPaneBookmark : Bookmark :=
  bookmark "b-5" "api pane" KPane (mkTarget (Some "$1") (Some "@3") (Some "%5"))
    {| sessionName := Some "work"; windowIndex := Some 5; windowName := Some "api";
       paneIndex := Some 1 |}
    None.

(** No session name was recorded, the window name and index were. *)
Definition namelessBookmark : Bookmark :=
  bookmark "b-4" "api" KWindow (mkTarget None (Some "@9") None)
    {| sessionName := None; windowIndex := Some 0; windowName := Some "api";
       paneIndex := None |}
    None.

(** Store contents. *)
Definition plain (i l : string) : Bookmark :=
  bookmark i l KWindow (mkTarget (Some "$1") (Some "@1") None) noFallback None.

Definition first := plain "id-1" "first".
Definition second := plain "id-2" "second".
Definition third := plain "id-3" "third".

Definition disk (v : Z) (l : list Bookmark) : Disk :=
  {| file := Json {| version := v; items := l |}; writable := true |}.

Definition threeDisk : Disk := disk 1 [first; second; third].

Definition oneDisk : Disk := disk 1 [first].

(** Two bookmarks share the label ["dup"]. *)
Definition dupA := plain "id-a" "dup".
Definition dupB := plain "id-b" "dup".
Definition dupDisk : Disk := disk 1 [first; dupA; second; dupB].

(** A file written by a later build, at schema version 2. *)
Definition futureDisk : Disk := disk 2 [first; second].

Definition env : Env :=
  {| randomUUID := "id-new"; nowLastUsed := 200; nowCreatedAt := 200;
     HOSTNAME := Some "box"; HOST := None |}.

End Sample.

(** ** Specification-level predicates: the store, continued *)

(** The file a successful write leaves behind for the sequence [l]: every
    write of the store follows a [read], which returns the current schema
    version. *)
Definition saved (l : list Bookmark) : Disk :=
  {| file := Json {| version := CURRENT_SCHEMA_VERSION; items := l |};
     writable := true |}.

(** ** More of the adapter ([src/tmux/adapter.ts]) *)

(** [s.split(sep)] for a one-character separator. The strings are the
    UTF-8 bytes of the JavaScript strings; the separators of the adapter are
    ASCII, and an ASCII byte never occurs inside a multi-byte character. *)
Fixpoint split (sep : Ascii.ascii) (s : string) : list string :=
  match s with
  | EmptyString => [EmptyString]
  | String c rest =>
      if Ascii.eqb c sep then EmptyString :: split sep rest
      else
        match split sep rest with
        | h :: t => String c h :: t
        | [] => [String c EmptyString]
        end
  end.

(** [parts.join(sep)] *)
Fixpoint join (sep : Ascii.ascii) (parts : list string) : string :=
  match parts with
  | [] => EmptyString
  | [p] => p
  | p :: rest => String.append p (String sep (join sep rest))
  end.

(** [sep] does not occur in [s]. *)
Fixpoint lacks (sep : Ascii.ascii) (s : string) : Prop :=
  match s with
  | EmptyString => True
  | String c rest => c <> sep /\ lacks sep rest
  end.

(** The character ["|"] between the fields of the format strings. *)
Definition fieldSeparator : Ascii.ascii := Ascii.ascii_of_nat 124.

(** [!s] for a string. *)
Definition isEmpty (s : string) : bool := String.eqb s "".

Section Parsers.

(** [Number.parseInt(s, 10)], as the embedding of numbers sees it. *)
Variable parseInt : string -> Z.

(** Parse a session line from tmux list-sessions. *)
Definition parseSession (line : string) : option TmuxSession.t :=
  match split fieldSeparator line with
  | sessionId :: sessionName :: windowCount :: attached :: created :: _ =>
      if isEmpty sessionId || isEmpty sessionName then None
      else
        Some (TmuxSession.mk sessionId sessionName (parseInt windowCount)
                (String.eqb attached "1") (parseInt created))
  | _ => None
  end.

(** Parse a window line from tmux list-windows. *)
Definition parseWindow (line : string) : option TmuxWindow.t :=
  match split fieldSeparator line with
  | windowId :: windowIndex :: windowName :: sessionId :: sessionName
      :: active :: paneCount :: _ =>
      if isEmpty windowId || isEmpty sessionId then None
      else
        Some (TmuxWindow.mk windowId (parseInt windowIndex) windowName sessionId
                sessionName (String.eqb active "1") (parseInt paneCount))
  | _ => None
  end.

(** Parse a pane line from tmux list-panes. *)
Definition parsePane (line : string) : option TmuxPane.t :=
  match split fieldSeparator line with
  | paneId :: paneIndex :: windowId :: windowIndex :: windowName :: sessionId
      :: sessionName :: active :: cwd :: currentCommand :: _ =>
      if isEmpty paneId || isEmpty windowId || isEmpty sessionId then None
      else
        Some (TmuxPane.mk paneId (parseInt paneIndex) windowId (parseInt windowIndex)
                windowName sessionId sessionName (String.eqb active "1") cwd
                currentCommand)
  | _ => None
  end.

End Parsers.

(** The environment variables [TMUX] and [TMUX_PANE]. *)
Record TmuxEnv := {
  TMUX : option string;
  TMUX_PANE : option string
}.

Module TmuxContext.
Record t := mk {
  insideTmux : bool;
  sessionId : option string;
  windowId : option string;
  paneId : option string
}.
End TmuxContext.

(** Error thrown when a tmux command fails. *)
Inductive AdapterError :=
| TmuxError (message command : string) (exitCode : Z) (stderr : string).

Module AdapterContext.

(** [socketArgs] of the constructor. *)
Definition socketArgs (socketName : option string) : list string :=
  match truthy socketName with
  | Some name => ["-L"; name]
  | None => []
  end.

(** Get current tmux context. *)
Definition getContext (env : TmuxEnv) : TmuxContext.t :=
  match truthy (TMUX env) with
  | None => TmuxContext.mk false None None None
  | Some _ => TmuxContext.mk true None None (TMUX_PANE env)
  end.

(** Get the current pane (only works when inside tmux). *)
Definition getCurrentPane (env : TmuxEnv) (st : TmuxState) : option TmuxPane.t :=
  let context := getContext env in
  if negb (TmuxContext.insideTmux context) then None
  else
    match truthy (TmuxContext.paneId context) with
    | Some pid => find (fun p => TmuxPane.paneId p = pid) (TmuxAdapter.listPanes st)
    | None => find (fun p => TmuxPane.active p = true) (TmuxAdapter.listPanes st)
    end.

(** Get the current window (only works when inside tmux). *)
Definition getCurrentWindow (env : TmuxEnv) (st : TmuxState) : option TmuxWindow.t :=
  match getCurrentPane env st with
  | None => None
  | Some pane =>
      find (fun w => TmuxWindow.windowId w = TmuxPane.windowId pane)
           (TmuxAdapter.listWindows st)
  end.

(** Get the current session (only works when inside tmux). *)
Definition getCurrentSession (env : TmuxEnv) (st : TmuxState) : option TmuxSession.t :=
  match getCurrentPane env st with
  | None => None
  | Some pane =>
      find (fun s => TmuxSession.sessionId s = TmuxPane.sessionId pane)
           (TmuxAdapter.listSessions st)
  end.

(** One [this.run(args)]: the argument vector handed to [tmux]. *)
Definition run (socket : option string) (args : list string) : list string :=
  socketArgs socket ++ args.

(** Switch when inside tmux: the tmux commands it runs, in order (each one
    runs when the previous one succeeded). *)
Definition switchToInsideTmux (socket : option string) (target : TmuxTarget)
  : list (list string) :=
  (match truthy (sessionId target) with
   | Some s => [run socket ["switch-client"; "-t"; s]]
   | None => []
   end)
  ++ (match truthy (windowId target) with
      | Some w => [run socket ["select-window"; "-t"; w]]
      | None => []
      end)
  ++ (match truthy (paneId target) with
      | Some p => [run socket ["select-pane"; "-t"; p]]
      | None => []
      end).

(** Switch when outside tmux: the arguments of the [tmux attach-session]
    it spawns, or the error it throws. *)
Definition switchToOutsideTmux (socket : option string) (target : TmuxTarget)
  : AdapterError + list string :=
  let args := socketArgs socket ++ ["attach-session"] in
  match truthy (paneId target) with
  | Some p => inr (args ++ ["-t"; p])
  | None =>
      match truthy (windowId target) with
      | Some w => inr (args ++ ["-t"; w])
      | None =>
          match truthy (sessionId target) with
          | Some s => inr (args ++ ["-t"; s])
          | None => inl (TmuxError "No target specified" "attach-session" 1 "")
          end
      end
  end.

End AdapterContext.

(** ** The command layer ([src/cli/commands.ts]) *)

(** How a command ends: [console.error(message)] and [process.exit(code)],
    or normally, with what it printed about. *)
Inductive Outcome (A : Type) : Type :=
| Exit (code : Z) (message : string)
| Completed (a : A).

Arguments Exit {A} code message.
Arguments Completed {A} a.

Module TargetInfo.
Record t := mk {
  sessionId : string;
  windowId : option string;
  paneId : option string;
  cwd : option string
}.
End TargetInfo.

Module Commands.

(** The [switch (kind)] of [cmdAdd]: the current target. *)
Definition currentTargetInfo (tenv : TmuxEnv) (st : TmuxState) (kind : BookmarkKind)
  : Outcome TargetInfo.t :=
  match kind with
  | KSession =>
      match AdapterContext.getCurrentSession tenv st with
      | None => Exit 1 "Error: could not get current session"
      | Some session =>
          Completed (TargetInfo.mk (TmuxSession.sessionId session) None None None)
      end
  | KWindow =>
      let window := AdapterContext.getCurrentWindow tenv st in
      let pane := AdapterContext.getCurrentPane tenv st in
      match window with
      | None => Exit 1 "Error: could not get current window"
      | Some window =>
          Completed (TargetInfo.mk (TmuxWindow.sessionId window)
                       (Some (TmuxWindow.windowId window)) None
                       (TmuxPane.cwd <$> pane))
      end
  | KPane =>
      match AdapterContext.getCurrentPane tenv st with
      | None => Exit 1 "Error: could not get current pane"
      | Some pane =>
          Completed (TargetInfo.mk (TmuxPane.sessionId pane)
                       (Some (TmuxPane.windowId pane)) (Some (TmuxPane.paneId pane))
                       (Some (TmuxPane.cwd pane)))
      end
  end.

(** The fallback info of [cmdAdd]. *)
Definition currentFallback (tenv : TmuxEnv) (st : TmuxState) : TmuxFallback :=
  let pane := AdapterContext.getCurrentPane tenv st in
  let window := AdapterContext.getCurrentWindow tenv st in
  let session := AdapterContext.getCurrentSession tenv st in
  {| sessionName := TmuxSession.sessionName <$> session;
     windowIndex := TmuxWindow.windowIndex <$> window;
     windowName := TmuxWindow.windowName <$> window;
     paneIndex := TmuxPane.paneIndex <$> pane |}.

(** Add a bookmark for the current window (default) or pane/session. It
    completes with the bookmark and the slot it prints. *)
Definition cmdAdd (env : Env) (tenv : TmuxEnv) (st : TmuxState) (label : string)
  (kind : BookmarkKind) : Store (Outcome (Bookmark * Z)) :=
  let context := AdapterContext.getContext tenv in
  if negb (TmuxContext.insideTmux context) then
    ret (Exit 1 "Error: must be inside tmux to add a bookmark")
  else
    match currentTargetInfo tenv st kind with
    | Exit code message => ret (Exit code message)
    | Completed targetInfo =>
        let fallback := currentFallback tenv st in
        bookmark <- BookmarkStore.add env label kind
                      (mkTarget (Some (TargetInfo.sessionId targetInfo))
                                (TargetInfo.windowId targetInfo)
                                (TargetInfo.paneId targetInfo))
                      fallback (TargetInfo.cwd targetInfo) ;;
        bookmarks <- BookmarkStore.list_ ;;
        let slot :=
          match findIndex (fun b => id b = id bookmark) bookmarks with
          | Some i => Z.of_nat i + 1
          | None => 0
          end in
        ret (Completed (bookmark, slot))
    end.

Section SlotOrLabel.

(** [Number.parseInt(target, 10)]; [None] is [NaN]. *)
Variable parseInt : string -> option Z.

(** [!Number.isNaN(slot) && slot > 0] *)
Definition asSlot (target : string) : option Z :=
  match parseInt target with
  | Some slot => if decide (slot > 0) then Some slot else None
  | None => None
  end.

(** Remove a bookmark by slot number or label. It completes with the label
    it prints. *)
Definition cmdRemove (target : string) : Store (Outcome string) :=
  r <- match asSlot target with
       | Some slot =>
           bookmark <- BookmarkStore.getBySlot slot ;;
           match bookmark with
           | Some bookmark =>
               removed <- BookmarkStore.removeBySlot slot ;;
               ret (removed, label bookmark)
           | None => ret (false, target)
           end
       | None =>
           bookmark <- BookmarkStore.getByLabel target ;;
           match bookmark with
           | Some bookmark =>
               removed <- BookmarkStore.remove (id bookmark) ;;
               ret (removed, target)
           | None => ret (false, target)
           end
       end ;;
  if fst r then ret (Completed (snd r))
  else ret (Exit 1 (String.append "Error: bookmark not found: " target)).

(** Rename a bookmark. It completes with the old and the new label it
    prints. *)
Definition cmdRename (target newLabel : string) : Store (Outcome (string * string)) :=
  bookmark <- match asSlot target with
              | Some slot => BookmarkStore.getBySlot slot
              | None => BookmarkStore.getByLabel target
              end ;;
  match bookmark with
  | None => ret (Exit 1 (String.append "Error: bookmark not found: " target))
  | Some bookmark =>
      let oldLabel := label bookmark in
      renamed <- BookmarkStore.rename (id bookmark) newLabel ;;
      if renamed then ret (Completed (oldLabel, newLabel))
      else ret (Exit 1 "Error: failed to rename bookmark")
  end.

End SlotOrLabel.

End Commands.

(** ** Specification-level predicates: snapshots *)

(** Every id in the snapshot is a non-empty string, as in every snapshot
    the adapter parses. *)
Definition idsNonEmpty (st : TmuxState) : Prop :=
  (forall i s, sessions st !! i = Some s -> TmuxSession.sessionId s <> "") /\
  (forall i w, windows st !! i = Some w ->
     TmuxWindow.windowId w <> "" /\ TmuxWindow.sessionId w <> "") /\
  (forall i p, panes st !! i = Some p ->
     TmuxPane.paneId p <> "" /\ TmuxPane.windowId p <> "" /\
     TmuxPane.sessionId p <> "").

(** ** Concrete scenarios for the adapter and the command layer *)

Module Scenario.

(** Inside tmux, in pane [%9]. *)
Definition inside : TmuxEnv :=
  {| TMUX := Some "/tmp/tmux-1000/default,4242,0"; TMUX_PANE := Some "%9" |}.

(** The bookmark [cmdAdd "api"] mints in pane [%9] of [Sample.workState]. *)
Definition added : Bookmark :=
  BookmarkStore.mint Sample.env "api" KWindow
    (mkTarget (Some "$7") (Some "@4") None)
    {| sessionName := Some "work"; windowIndex := Some 0; windowName := Some "api";
       paneIndex := Some 0 |}
    (Some "/srv/api").

Definition digitOf (c : Ascii.ascii) : option Z :=
  let n := Z.of_nat (Ascii.nat_of_ascii c) in
  if decide (48 <= n <= 57) then Some (n - 48) else None.

Fixpoint leadingDigits (s : string) (acc : option Z) : option Z :=
  match s with
  | EmptyString => acc
  | String c rest =>
      match digitOf c with
      | Some dgt => leadingDigits rest (Some (10 * default 0 acc + dgt))
      | None => acc
      end
  end.

(** A [parseInt] for the scenarios: the number written by the leading
    decimal digits of [s], [NaN] when there is none. This is
    [Number.parseInt(s, 10)] on a string that starts with neither white
    space nor a sign. *)
Definition parseDecimal (s : string) : option Z := leadingDigits s None.

(** A bookmark labelled with a number. *)
Definition numberedDisk : Disk :=
  Sample.disk 1 [Sample.first; Sample.plain "id-5" "5"].

End Scenario.


(** * Properties *)

(** ** JavaScript truthiness *)

Section Truthiness.

Lemma truthy_set (v : string) : v <> "" -> truthy (Some v) = Some v.
Proof.
  intros Hv. unfold truthy.
  destruct (String.eqb v "") eqn:E; [| reflexivity].
  apply String.eqb_eq in E. contradiction.
Qed.

Lemma truthy_Some (o : option string) (v : string) :
  truthy o = Some v <-> o = Some v /\ v <> "".
Proof.
  split.
  - destruct o as [u |]; simpl; [| discriminate].
    destruct (String.eqb u "") eqn:E; [discriminate |].
    intros [= ->]. split; [reflexivity |].
    intros ->. rewrite String.eqb_refl in E. discriminate.
  - intros [-> Hv]. by apply truthy_set.
Qed.

Lemma truthy_None (o : option string) :
  truthy o = None <-> o = None \/ o = Some "".
Proof.
  split.
  - destruct o as [u |]; simpl; [| by left].
    destruct (String.eqb u "") eqn:E; [| discriminate].
    apply String.eqb_eq in E. subst. by right.
  - intros [-> | ->]; reflexivity.
Qed.

End Truthiness.

(** ** The fallback tier *)

Section FallbackTier.

Variable b : Bookmark.
Variable st : TmuxState.

Lemma fallbackSession_None :
  noSessionMatch (fallback b) st <-> fallbackSession (fallback b) st = None.
Proof.
  unfold noSessionMatch, fallbackSession.
  destruct (sessionName (fallback b)) as [n |] eqn:E; simpl; [| tauto].
  destruct (String.eqb n "") eqn:En.
  - apply String.eqb_eq in En. tauto.
  - apply String.eqb_neq in En. tauto.
Qed.

Lemma fallbackSession_Some n s :
  sessionName (fallback b) = Some n -> n <> "" ->
  TmuxAdapter.findSessionByName st n = Some s ->
  fallbackSession (fallback b) st = Some s.
Proof.
  intros Hn Hne Hs. unfold fallbackSession.
  by rewrite Hn, truthy_set.
Qed.

Lemma windowByName_None s :
  nameLookupFails (fallback b) st s <-> windowByName (fallback b) st s = None.
Proof.
  unfold nameLookupFails, windowByName.
  destruct (windowName (fallback b)) as [n |] eqn:E; simpl; [| tauto].
  destruct (String.eqb n "") eqn:En.
  - apply String.eqb_eq in En. tauto.
  - apply String.eqb_neq in En. tauto.
Qed.

Lemma windowByName_Some s n w :
  windowName (fallback b) = Some n -> n <> "" ->
  TmuxAdapter.findWindowByName st (TmuxSession.sessionId s) n = Some w ->
  windowByName (fallback b) st s = Some w.
Proof.
  intros Hn Hne Hw. unfold windowByName.
  by rewrite Hn, truthy_set.
Qed.

Lemma windowByIndex_None s :
  indexLookupFails (fallback b) st s <-> windowByIndex (fallback b) st s = None.
Proof.
  unfold indexLookupFails, windowByIndex.
  destruct (windowIndex (fallback b)); tauto.
Qed.

(** What the tier returns once the session is found, for a window or a
    pane bookmark. *)
Lemma tryResolveByFallback_found s :
  fallbackSession (fallback b) st = Some s ->
  kind b <> KSession ->
  tryResolveByFallback b st =
    match windowByName (fallback b) st s with
    | Some w => Some (fallbackTarget s (Some w))
    | None =>
        match windowByIndex (fallback b) st s with
        | Some w => Some (fallbackTarget s (Some w))
        | None => None
        end
    end.
Proof.
  intros Hs Hk. unfold tryResolveByFallback. rewrite Hs.
  destruct (decide (kind b = KSession)) as [? | _]; [contradiction |].
  destruct (windowByName (fallback b) st s) as [w |].
  - destruct (kind b); [contradiction | reflexivity | reflexivity].
  - destruct (windowByIndex (fallback b) st s) as [w |]; [| reflexivity].
    destruct (kind b); [contradiction | reflexivity | reflexivity].
Qed.

Lemma tryResolveByFallback_session s :
  fallbackSession (fallback b) st = Some s ->
  kind b = KSession ->
  tryResolveByFallback b st = Some (fallbackTarget s None).
Proof.
  intros Hs Hk. unfold tryResolveByFallback. rewrite Hs.
  destruct (decide (kind b = KSession)); [reflexivity | contradiction].
Qed.

Lemma tryResolveByFallback_no_session :
  fallbackSession (fallback b) st = None -> tryResolveByFallback b st = None.
Proof. intros Hs. unfold tryResolveByFallback. by rewrite Hs. Qed.

(** With non-empty recorded names that match, the tier returns the
    matched entity. *)
Lemma tryResolveByFallback_match s w :
  fallbackNamesMatch true b st s w ->
  tryResolveByFallback b st = Some (fallbackTarget s w).
Proof.
  intros (n & Hn & Hne & Hs & Hw).
  assert (Hfs : fallbackSession (fallback b) st = Some s)
    by (eapply fallbackSession_Some; eauto).
  destruct (kind b) eqn:Hk.
  - subst w. by apply tryResolveByFallback_session.
  - destruct Hw as (wn & w' & -> & Hwn & Hwne & Hfw).
    rewrite (tryResolveByFallback_found s Hfs) by congruence.
    by rewrite (windowByName_Some s wn w') by auto.
  - destruct Hw as (wn & w' & -> & Hwn & Hwne & Hfw).
    rewrite (tryResolveByFallback_found s Hfs) by congruence.
    by rewrite (windowByName_Some s wn w') by auto.
Qed.

End FallbackTier.

(** ** The resolver *)

Section Resolver.

Variable b : Bookmark.
Variable st : TmuxState.

(** [resolveBookmark] reports a method only for the tier that produced
    the target, after every earlier tier failed. *)
Lemma resolveBookmark_method m t :
  resolveBookmark b st = Resolved m t ->
  match m with
  | MId => tryResolveById b st = Some t
  | MFallback =>
      tryResolveById b st = None /\ tryResolveByFallback b st = Some t
  | MCwd =>
      tryResolveById b st = None /\ tryResolveByFallback b st = None /\
      exists c, cwd (meta b) = Some c /\ c <> "" /\ tryResolveByCwd c st = Some t
  end.
Proof.
  unfold resolveBookmark.
  destruct (tryResolveById b st) as [t1 |]; [intros [= <- <-]; reflexivity |].
  destruct (tryResolveByFallback b st) as [t2 |]; [intros [= <- <-]; by split |].
  destruct (truthy (cwd (meta b))) as [c |] eqn:Hc; [| discriminate].
  apply truthy_Some in Hc as [Hc Hne].
  destruct (tryResolveByCwd c st) as [t3 |] eqn:Ht; [| discriminate].
  intros [= <- <-]. repeat split; eauto.
Qed.

Lemma resolveBookmark_fallback t :
  tryResolveById b st = None -> tryResolveByFallback b st = Some t ->
  resolveBookmark b st = Resolved MFallback t.
Proof. intros H1 H2. unfold resolveBookmark. by rewrite H1, H2. Qed.

End Resolver.

(** C1 (amended). [resolveBookmark] goes through the tiers in order: a
    stable-ID result is returned with method ["id"]; failing that, a
    fallback result with method ["fallback"]; failing both, and only when
    [meta.cwd] is recorded and not empty, a cwd result with method
    ["cwd"]; failing all, the bookmark is not resolved. A reported method is
    the tier that produced the target, every earlier tier having failed. In
    particular, when the stable ID matches nothing and the recorded,
    non-empty fallback session and window names match a live entity, the
    result is that entity with method ["fallback"]. *)
Theorem resolveBookmark_tier_order (b : Bookmark) (st : TmuxState) :
  (forall t, tryResolveById b st = Some t ->
     resolveBookmark b st = Resolved MId t) /\
  (forall t, tryResolveById b st = None -> tryResolveByFallback b st = Some t ->
     resolveBookmark b st = Resolved MFallback t) /\
  (forall c t, tryResolveById b st = None -> tryResolveByFallback b st = None ->
     cwd (meta b) = Some c -> c <> "" -> tryResolveByCwd c st = Some t ->
     resolveBookmark b st = Resolved MCwd t) /\
  (tryResolveById b st = None -> tryResolveByFallback b st = None ->
     (forall c, cwd (meta b) = Some c -> c <> "" -> tryResolveByCwd c st = None) ->
     resolveBookmark b st = Unresolved unresolvedReason) /\
  (forall m t, resolveBookmark b st = Resolved m t ->
     match m with
     | MId => tryResolveById b st = Some t
     | MFallback =>
         tryResolveById b st = None /\ tryResolveByFallback b st = Some t
     | MCwd =>
         tryResolveById b st = None /\ tryResolveByFallback b st = None /\
         exists c, cwd (meta b) = Some c /\ c <> "" /\ tryResolveByCwd c st = Some t
     end) /\
  (forall s w, tryResolveById b st = None -> fallbackNamesMatch true b st s w ->
     exists m, resolveBookmark b st = Resolved m (fallbackTarget s w) /\
               method_tag m = "fallback").
Proof.
  repeat apply conj.
  - intros t H. unfold resolveBookmark. by rewrite H.
  - intros t. apply resolveBookmark_fallback.
  - intros c t H1 H2 Hc Hne Ht. unfold resolveBookmark.
    by rewrite H1, H2, Hc, truthy_set, Ht.
  - intros H1 H2 Hall. unfold resolveBookmark. rewrite H1, H2.
    destruct (truthy (cwd (meta b))) as [c |] eqn:Hc; [| reflexivity].
    apply truthy_Some in Hc as [Hc Hne]. by rewrite (Hall c Hc Hne).
  - intros m t. apply resolveBookmark_method.
  - intros s w H1 Hm. exists MFallback. split; [| reflexivity].
    apply resolveBookmark_fallback; [assumption |].
    by apply tryResolveByFallback_match.
Qed.

(** The scenario of the specification: the bookmark names session [$1],
    which is gone, and session name ["work"], which is live as [$7]. *)
Lemma resolveBookmark_tier_order_witness :
  exists m,
    resolveBookmark Sample.workBookmark Sample.workState
      = Resolved m (mkTarget (Some "$7") None None) /\
    method_tag m = "fallback".
Proof.
  destruct (resolveBookmark_tier_order Sample.workBookmark Sample.workState)
    as (_ & _ & _ & _ & _ & H).
  apply (H (Sample.session "$7" "work") None).
  - reflexivity.
  - exists "work". split; [reflexivity |]. split; [discriminate |].
    split; reflexivity.
Defined.

(** C1 as stated fails when a recorded name is the empty string: the
    bookmark's stable window id [@9] is gone, its session name ["work"] and
    its (empty) window name are those of the live window [@1], and yet the
    bookmark resolves through the cwd tier, to another window. *)
Lemma resolveBookmark_empty_window_name :
  tryResolveById Sample.blankBookmark Sample.blankState = None /\
  fallbackNamesMatch false Sample.blankBookmark Sample.blankState
    (Sample.session "$1" "work")
    (Some (Sample.window "@1" 0 "" "$1" "work")) /\
  resolveBookmark Sample.blankBookmark Sample.blankState
    = Resolved MCwd (mkTarget (Some "$1") (Some "@2") (Some "%2")).
Proof.
  split; [reflexivity |]. split; [| reflexivity].
  exists "work". split; [reflexivity |]. split; [discriminate |].
  split; [reflexivity |]. simpl.
  exists "", (Sample.window "@1" 0 "" "$1" "work").
  repeat split. discriminate.
Qed.

(** C8 (amended). In the fallback tier, once the session is found by its
    recorded non-empty name, a window or pane bookmark resolves to the
    window found by the recorded non-empty window name, whatever the
    recorded index; the window index is used when the name lookup gives
    nothing (no name, an empty name, or no such window); with no window the
    tier yields nothing, as it does with no session. A target of this tier
    never has a pane id, always has a session id and, for window and pane
    bookmarks, a window id. *)
Theorem tryResolveByFallback_window_search (b : Bookmark) (st : TmuxState) :
  (noSessionMatch (fallback b) st -> tryResolveByFallback b st = None) /\
  (forall n s,
     sessionName (fallback b) = Some n -> n <> "" ->
     TmuxAdapter.findSessionByName st n = Some s ->
     kind b <> KSession ->
     (forall wn w,
        windowName (fallback b) = Some wn -> wn <> "" ->
        TmuxAdapter.findWindowByName st (TmuxSession.sessionId s) wn = Some w ->
        tryResolveByFallback b st = Some (fallbackTarget s (Some w))) /\
     (forall i w,
        nameLookupFails (fallback b) st s ->
        windowIndex (fallback b) = Some i ->
        TmuxAdapter.findWindowByIndex st (TmuxSession.sessionId s) i = Some w ->
        tryResolveByFallback b st = Some (fallbackTarget s (Some w))) /\
     (nameLookupFails (fallback b) st s -> indexLookupFails (fallback b) st s ->
      tryResolveByFallback b st = None)) /\
  (forall t, tryResolveByFallback b st = Some t ->
     is_Some (sessionId t) /\ paneId t = None /\
     (kind b <> KSession -> is_Some (windowId t))).
Proof.
  repeat apply conj.
  - intros H. apply tryResolveByFallback_no_session.
    by apply fallbackSession_None.
  - intros n s Hn Hne Hs Hk.
    assert (Hfound := tryResolveByFallback_found b st s
                        (fallbackSession_Some b st n s Hn Hne Hs) Hk).
    repeat apply conj.
    + intros wn w Hwn Hwne Hw. rewrite Hfound.
      by rewrite (windowByName_Some b st s wn w).
    + intros i w Hfail Hi Hw. rewrite Hfound.
      apply windowByName_None in Hfail. rewrite Hfail.
      unfold windowByIndex. by rewrite Hi, Hw.
    + intros Hfail Hifail. rewrite Hfound.
      apply windowByName_None in Hfail. apply windowByIndex_None in Hifail.
      by rewrite Hfail, Hifail.
  - intros t. unfold tryResolveByFallback.
    destruct (fallbackSession (fallback b) st) as [s |]; [| discriminate].
    destruct (decide (kind b = KSession)) as [Hk | Hk].
    + intros [= <-]. simpl. repeat split; [by eexists | contradiction].
    + destruct (match windowByName (fallback b) st s with
                | Some w => Some w
                | None => windowByIndex (fallback b) st s
                end) as [w |]; [| discriminate].
      destruct (kind b); [discriminate | |];
        intros [= <-]; simpl; repeat split; by eexists.
Qed.

(** A pane bookmark degrades to its window: session ["work"] and window
    ["api"] are found by name, the stale index 5 is not consulted. *)
Lemma tryResolveByFallback_window_search_witness :
  tryResolveByFallback Sample.apiPaneBookmark Sample.workState
    = Some (mkTarget (Some "$7") (Some "@4") None).
Proof.
  destruct (tryResolveByFallback_window_search Sample.apiPaneBookmark Sample.workState)
    as (_ & H & _).
  destruct (H "work" (Sample.session "$7" "work")) as (Hname & _ & _).
  - reflexivity.
  - discriminate.
  - reflexivity.
  - discriminate.
  - apply (Hname "api" (Sample.window "@4" 0 "api" "$7" "work")).
    + reflexivity.
    + discriminate.
    + reflexivity.
Defined.

(** C8 as stated fails when the recorded window name is the empty string:
    the session is found, a lookup by the recorded name would find window
    [@1], and the tier returns window [@2], found by index. *)
Lemma tryResolveByFallback_empty_window_name :
  kind Sample.blankBookmarkAt1 = KPane /\
  sessionName (fallback Sample.blankBookmarkAt1) = Some "work" /\
  TmuxAdapter.findSessionByName Sample.blankState "work"
    = Some (Sample.session "$1" "work") /\
  windowName (fallback Sample.blankBookmarkAt1) = Some "" /\
  TmuxAdapter.findWindowByName Sample.blankState "$1" ""
    = Some (Sample.window "@1" 0 "" "$1" "work") /\
  tryResolveByFallback Sample.blankBookmarkAt1 Sample.blankState
    = Some (mkTarget (Some "$1") (Some "@2") None).
Proof. repeat split. Qed.

(** C10. A bookmark with no recorded session name fails the fallback tier,
    whatever its kind, window name and window index; it resolves, if at
    all, through the ["id"] or the ["cwd"] tier. *)
Theorem tryResolveByFallback_needs_sessionName (b : Bookmark) (st : TmuxState) :
  sessionName (fallback b) = None ->
  tryResolveByFallback b st = None /\
  (forall m t, resolveBookmark b st = Resolved m t ->
     method_tag m = "id" \/ method_tag m = "cwd").
Proof.
  intros Hn.
  assert (Hnone : tryResolveByFallback b st = None).
  { apply tryResolveByFallback_no_session.
    unfold fallbackSession. by rewrite Hn. }
  split; [assumption |].
  intros m t Hr. apply resolveBookmark_method in Hr.
  destruct m; [by left | | by right].
  destruct Hr as [_ Hr]. congruence.
Qed.

(** Window ["api"] is live at index 0, but the bookmark has no session
    name: the tier fails and the bookmark is not resolved. *)
Lemma tryResolveByFallback_needs_sessionName_witness :
  sessionName (fallback Sample.namelessBookmark) = None /\
  tryResolveByFallback Sample.namelessBookmark Sample.workState = None /\
  (forall m t,
     resolveBookmark Sample.namelessBookmark Sample.workState = Resolved m t ->
     method_tag m = "id" \/ method_tag m = "cwd").
Proof.
  split; [reflexivity |].
  apply (tryResolveByFallback_needs_sessionName Sample.namelessBookmark Sample.workState).
  reflexivity.
Defined.

(** ** The store *)

Section StoreFacts.

Import BookmarkStore.

Lemma migrate_items data : items (migrate data) = items data.
Proof. unfold migrate. by destruct (decide _). Qed.

Lemma migrate_version data : version (migrate data) = CURRENT_SCHEMA_VERSION.
Proof. unfold migrate. by destruct (decide _). Qed.

(** Reading never changes the disk. *)
Lemma read_disk d : snd (read d) = d.
Proof. unfold read. by destruct (file d). Qed.

(** The stored sequence is what [read] returns. *)
Lemma list_read d l :
  fst (list_ d) = inr l ->
  exists data, read d = (inr data, d) /\ items data = l.
Proof.
  unfold list_, bind, ret. pose proof (read_disk d) as Hd.
  destruct (read d) as [[e | data] d']; simpl in *; [discriminate |].
  intros [= <-]. subst d'. by exists data.
Qed.

Lemma write_ok data d :
  writable d = true ->
  write data d = (inr tt, {| file := Json data; writable := true |}).
Proof. intros Hw. unfold write. by rewrite Hw. Qed.

(** After a write, the stored sequence is the written one. *)
Lemma list_written data w :
  fst (list_ {| file := Json data; writable := w |}) = inr (items data).
Proof. unfold list_, bind, ret, read. simpl. by rewrite migrate_items. Qed.

Lemma splice_remove {A} (arr : list A) (i : nat) :
  snd (splice arr i 1 []) = delete i arr.
Proof.
  unfold splice. simpl. rewrite delete_take_drop.
  by replace (i + 1)%nat with (S i) by lia.
Qed.

Lemma splice_removed {A} (arr : list A) (i : nat) (x : A) :
  arr !! i = Some x -> fst (splice arr i 1 []) = [x].
Proof.
  intros Hx. unfold splice. simpl.
  rewrite (drop_S arr x i Hx). reflexivity.
Qed.

Lemma splice_insert {A} (arr : list A) (i : nat) (x : A) :
  snd (splice arr i 0 [x]) = take i arr ++ x :: drop i arr.
Proof. unfold splice. simpl. by rewrite Nat.add_0_r. Qed.

End StoreFacts.

(** Unfold one store method down to its reads and writes. *)
Ltac run_store Hread :=
  unfold bind, ret; rewrite Hread; cbv beta iota zeta.

(** C6. With [l] the stored sequence, [getBySlot k] for
    [1 <= k <= length l] returns the bookmark at position [k - 1]; for any
    other [k] it returns null. It never throws when the file can be read,
    and never changes the file. *)
Theorem getBySlot_slot_invariant (d : Disk) (l : list Bookmark) (k : Z) :
  fst (BookmarkStore.list_ d) = inr l ->
  (1 <= k <= Z.of_nat (length l) ->
   exists b, l !! Z.to_nat (k - 1) = Some b /\
             BookmarkStore.getBySlot k d = (inr (Some b), d)) /\
  (k <= 0 \/ Z.of_nat (length l) < k ->
   BookmarkStore.getBySlot k d = (inr None, d)).
Proof.
  intros Hl. apply list_read in Hl as (data & Hread & <-).
  split; intros Hk; unfold BookmarkStore.getBySlot; run_store Hread.
  - destruct (decide _) as [Hout | _]; [lia |].
    destruct (lookup_lt_is_Some_2 (items data) (Z.to_nat (k - 1))) as [b Hb]; [lia |].
    exists b. by rewrite Hb.
  - destruct (decide _) as [_ | Hin]; [reflexivity | lia].
Qed.

(** Slot 2 of three bookmarks is the second one. *)
Lemma getBySlot_slot_invariant_witness :
  exists b,
    [Sample.first; Sample.second; Sample.third] !! Z.to_nat (2 - 1) = Some b /\
    BookmarkStore.getBySlot 2 Sample.threeDisk = (inr (Some b), Sample.threeDisk).
Proof.
  destruct (getBySlot_slot_invariant Sample.threeDisk
              [Sample.first; Sample.second; Sample.third] 2 eq_refl) as [H _].
  apply H. simpl. lia.
Defined.

(** C7. [removeBySlot k] with [k] in range returns true, deletes the entry
    at slot [k] and shifts every later entry down by one slot; out of range
    it returns false and leaves the file as it is. From labels
    ["first"; "second"; "third"], [removeBySlot 2] leaves
    ["first"; "third"], and [getBySlot 2] then returns the bookmark that
    was third. *)
Theorem removeBySlot_shifts_down (d : Disk) (l : list Bookmark) (k : Z) :
  fst (BookmarkStore.list_ d) = inr l ->
  (1 <= k <= Z.of_nat (length l) -> writable d = true ->
   exists d' l',
     BookmarkStore.removeBySlot k d = (inr true, d') /\
     fst (BookmarkStore.list_ d') = inr l' /\
     length l = S (length l') /\
     (forall j, (j < Z.to_nat (k - 1))%nat -> l' !! j = l !! j) /\
     (forall j, (Z.to_nat (k - 1) <= j)%nat -> l' !! j = l !! S j)) /\
  (k <= 0 \/ Z.of_nat (length l) < k ->
   BookmarkStore.removeBySlot k d = (inr false, d)) /\
  (k = 2 -> label <$> l = ["first"; "second"; "third"] -> writable d = true ->
   exists d' l' b,
     BookmarkStore.removeBySlot k d = (inr true, d') /\
     fst (BookmarkStore.list_ d') = inr l' /\
     label <$> l' = ["first"; "third"] /\
     l !! 2%nat = Some b /\ label b = "third" /\
     BookmarkStore.getBySlot 2 d' = (inr (Some b), d')).
Proof.
  intros Hl. apply list_read in Hl as (data & Hread & <-).
  repeat apply conj.
  - intros Hk Hw.
    exists {| file := Json (setItems data (delete (Z.to_nat (k - 1)) (items data)));
              writable := true |}, (delete (Z.to_nat (k - 1)) (items data)).
    repeat apply conj.
    + unfold BookmarkStore.removeBySlot. run_store Hread.
      destruct (decide _) as [Hout | _]; [lia |].
      rewrite splice_remove. unfold bind. by rewrite write_ok by assumption.
    + apply list_written.
    + rewrite length_delete; [| apply lookup_lt_is_Some_2; lia].
      assert (0 < length (items data))%nat by lia. lia.
    + intros j Hj. by apply list_lookup_delete_lt.
    + intros j Hj. by apply list_lookup_delete_ge.
  - intros Hk. unfold BookmarkStore.removeBySlot. run_store Hread.
    destruct (decide _) as [_ | Hin]; [reflexivity | lia].
  - intros -> Hlabels Hw.
    destruct (items data) as [| b1 [| b2 [| b3 [| b4 rest]]]] eqn:Hitems;
      try discriminate.
    injection Hlabels as H1 H2 H3.
    exists {| file := Json (setItems data [b1; b3]); writable := true |}, [b1; b3], b3.
    repeat apply conj.
    + unfold BookmarkStore.removeBySlot. run_store Hread. rewrite Hitems.
      rewrite splice_remove. simpl.
      unfold bind. by rewrite write_ok by assumption.
    + apply list_written.
    + simpl. by rewrite H1, H3.
    + reflexivity.
    + assumption.
    + unfold BookmarkStore.getBySlot, bind, ret, BookmarkStore.read. simpl.
      rewrite migrate_items. reflexivity.
Qed.

(** Removing slot 2 of ["first"; "second"; "third"]. *)
Lemma removeBySlot_shifts_down_witness :
  exists d' l' b,
    BookmarkStore.removeBySlot 2 Sample.threeDisk = (inr true, d') /\
    fst (BookmarkStore.list_ d') = inr l' /\
    label <$> l' = ["first"; "third"] /\
    [Sample.first; Sample.second; Sample.third] !! 2%nat = Some b /\
    label b = "third" /\
    BookmarkStore.getBySlot 2 d' = (inr (Some b), d').
Proof.
  destruct (removeBySlot_shifts_down Sample.threeDisk
              [Sample.first; Sample.second; Sample.third] 2 eq_refl)
    as (_ & _ & H).
  apply H; reflexivity.
Defined.

(** *** Moving a bookmark *)

Section Move.

Context {A : Type}.
Implicit Types l : list A.

Lemma moved_Permutation l f t x :
  l !! f = Some x -> Permutation (moved l f t x) l.
Proof.
  intros Hx. unfold moved.
  rewrite <- Permutation_middle, take_drop.
  symmetry. by apply delete_Permutation.
Qed.

Lemma moved_lookup l f t x :
  l !! f = Some x -> (t < length l)%nat -> moved l f t x !! t = Some x.
Proof.
  intros Hx Ht. unfold moved. apply list_lookup_middle.
  symmetry. apply length_take_le. rewrite length_delete by eauto. lia.
Qed.

End Move.

(** C5. With both slots in range, [move fromSlot toSlot] returns true and
    permutes the stored sequence: the bookmarks, and so the multiset of
    their ids, are the same, and the bookmark at [toSlot] afterwards is the
    one that was at [fromSlot]. With a slot out of range it returns false
    and leaves the file as it is. *)
Theorem move_is_permutation (d : Disk) (l : list Bookmark) (fromSlot toSlot : Z) :
  fst (BookmarkStore.list_ d) = inr l ->
  (1 <= fromSlot <= Z.of_nat (length l) -> 1 <= toSlot <= Z.of_nat (length l) ->
   writable d = true ->
   exists d' l' b,
     BookmarkStore.move fromSlot toSlot d = (inr true, d') /\
     fst (BookmarkStore.list_ d') = inr l' /\
     Permutation l' l /\
     Permutation (id <$> l') (id <$> l) /\
     l !! Z.to_nat (fromSlot - 1) = Some b /\
     l' !! Z.to_nat (toSlot - 1) = Some b) /\
  (~ (1 <= fromSlot <= Z.of_nat (length l) /\ 1 <= toSlot <= Z.of_nat (length l)) ->
   BookmarkStore.move fromSlot toSlot d = (inr false, d)).
Proof.
  intros Hl. apply list_read in Hl as (data & Hread & <-).
  split.
  - intros Hf Ht Hw.
    destruct (lookup_lt_is_Some_2 (items data) (Z.to_nat (fromSlot - 1))) as [b Hb];
      [lia |].
    set (l' := moved (items data) (Z.to_nat (fromSlot - 1)) (Z.to_nat (toSlot - 1)) b).
    exists {| file := Json (setItems data l'); writable := true |}, l', b.
    repeat apply conj.
    + unfold BookmarkStore.move. run_store Hread.
      destruct (decide _) as [Hout | _]; [lia |].
      rewrite (surjective_pairing (splice (items data) _ 1 [])).
      rewrite (splice_removed _ _ b Hb), splice_remove, splice_insert.
      unfold bind. by rewrite write_ok by assumption.
    + apply list_written.
    + by apply moved_Permutation.
    + apply fmap_Permutation. by apply moved_Permutation.
    + assumption.
    + apply moved_lookup; [assumption | lia].
  - intros Hout. unfold BookmarkStore.move. run_store Hread.
    destruct (decide _) as [_ | Hin]; [reflexivity | lia].
Qed.

(** Moving slot 1 to slot 3 of three bookmarks, as in the store's tests:
    the order becomes second, third, first. *)
Lemma move_is_permutation_witness :
  exists d' l' b,
    BookmarkStore.move 1 3 Sample.threeDisk = (inr true, d') /\
    fst (BookmarkStore.list_ d') = inr l' /\
    Permutation l' [Sample.first; Sample.second; Sample.third] /\
    Permutation (id <$> l') (id <$> [Sample.first; Sample.second; Sample.third]) /\
    [Sample.first; Sample.second; Sample.third] !! Z.to_nat (1 - 1) = Some b /\
    l' !! Z.to_nat (3 - 1) = Some b.
Proof.
  destruct (move_is_permutation Sample.threeDisk
              [Sample.first; Sample.second; Sample.third] 1 3 eq_refl) as [H _].
  apply H; [simpl; lia | simpl; lia | reflexivity].
Defined.

(** *** Renaming *)

(** C9. When some stored bookmark has the id, [rename id newLabel] returns
    true and changes the label of the first such bookmark, in place: its
    id, slot, kind, target, fallback and meta, and every other slot of the
    sequence, are as before. When no stored bookmark has the id, it returns
    false and leaves the file as it is. *)
Theorem rename_changes_only_label (d : Disk) (l : list Bookmark)
  (i newLabel : string) :
  fst (BookmarkStore.list_ d) = inr l ->
  ((exists j b, l !! j = Some b /\ id b = i) -> writable d = true ->
   exists d' l' index old new,
     BookmarkStore.rename i newLabel d = (inr true, d') /\
     fst (BookmarkStore.list_ d') = inr l' /\
     length l' = length l /\
     l !! index = Some old /\ id old = i /\
     l' !! index = Some new /\
     label new = newLabel /\
     id new = id old /\ kind new = kind old /\ target new = target old /\
     fallback new = fallback old /\ meta new = meta old /\
     (forall j, j <> index -> l' !! j = l !! j)) /\
  ((forall j b, l !! j = Some b -> id b <> i) ->
   BookmarkStore.rename i newLabel d = (inr false, d)).
Proof.
  intros Hl. apply list_read in Hl as (data & Hread & <-).
  split.
  - intros (j & b & Hj & Hb) Hw.
    destruct (list_find (fun b => id b = i) (items data)) as [[index old] |] eqn:Hfind.
    2: { apply list_find_None in Hfind.
         apply list_elem_of_lookup_2 in Hj.
         rewrite Forall_forall in Hfind. by destruct (Hfind b Hj). }
    pose proof Hfind as Hfound.
    apply list_find_Some in Hfound as (Hold & Hid & _).
    exists {| file := Json (setItems data (<[index := setLabel old newLabel]> (items data)));
              writable := true |},
           (<[index := setLabel old newLabel]> (items data)),
           index, old, (setLabel old newLabel).
    repeat apply conj; try reflexivity; try assumption.
    + unfold BookmarkStore.rename. run_store Hread. rewrite Hfind.
      unfold bind. by rewrite write_ok by assumption.
    + apply list_written.
    + apply length_insert.
    + apply list_lookup_insert_eq. by eapply lookup_lt_Some.
    + intros j' Hne. apply list_lookup_insert_ne. congruence.
  - intros Hnone. unfold BookmarkStore.rename. run_store Hread.
    destruct (list_find (fun b => id b = i) (items data)) as [[index old] |] eqn:Hfind;
      [| reflexivity].
    apply list_find_Some in Hfind as (Hold & Hid & _).
    by destruct (Hnone index old Hold).
Qed.

(** Renaming the second of three bookmarks. *)
Lemma rename_changes_only_label_witness :
  exists d' l' index old new,
    BookmarkStore.rename "id-2" "renamed" Sample.threeDisk = (inr true, d') /\
    fst (BookmarkStore.list_ d') = inr l' /\
    length l' = length [Sample.first; Sample.second; Sample.third] /\
    [Sample.first; Sample.second; Sample.third] !! index = Some old /\
    id old = "id-2" /\
    l' !! index = Some new /\
    label new = "renamed" /\
    id new = id old /\ kind new = kind old /\ target new = target old /\
    fallback new = fallback old /\ meta new = meta old /\
    (forall j, j <> index ->
       l' !! j = [Sample.first; Sample.second; Sample.third] !! j).
Proof.
  destruct (rename_changes_only_label Sample.threeDisk
              [Sample.first; Sample.second; Sample.third] "id-2" "renamed" eq_refl)
    as [H _].
  apply H; [| reflexivity].
  exists 1%nat, Sample.second. split; reflexivity.
Defined.

(** *** Lookup by label *)

(** C3 (amended). [getByLabel label] returns the first bookmark in
    sequence order whose label matches (first match wins); for a label with
    no match it returns null. *)
Theorem getByLabel_first_match (d : Disk) (l : list Bookmark) (lbl : string) :
  fst (BookmarkStore.list_ d) = inr l ->
  (forall i b,
     l !! i = Some b -> label b = lbl ->
     (forall j b', (j < i)%nat -> l !! j = Some b' -> label b' <> lbl) ->
     BookmarkStore.getByLabel lbl d = (inr (Some b), d)) /\
  ((forall j b', l !! j = Some b' -> label b' <> lbl) ->
   BookmarkStore.getByLabel lbl d = (inr None, d)).
Proof.
  intros Hl. apply list_read in Hl as (data & Hread & <-).
  split.
  - intros i b Hi Hb Hfirst.
    unfold BookmarkStore.getByLabel. run_store Hread. unfold find.
    assert (Hfind : list_find (fun b => label b = lbl) (items data) = Some (i, b)).
    { apply list_find_Some. repeat split; [assumption.. |].
      intros j y Hj Hlt. by apply (Hfirst j y). }
    by rewrite Hfind.
  - intros Hnone.
    unfold BookmarkStore.getByLabel. run_store Hread. unfold find.
    assert (Hfind : list_find (fun b => label b = lbl) (items data) = None).
    { apply list_find_None, Forall_forall. intros x Hx.
      apply list_elem_of_lookup_1 in Hx as [j Hj]. by apply (Hnone j x). }
    by rewrite Hfind.
Qed.

(** Of the two bookmarks labelled ["dup"], the one at slot 2 is found. *)
Lemma getByLabel_first_match_witness :
  BookmarkStore.getByLabel "dup" Sample.dupDisk = (inr (Some Sample.dupA), Sample.dupDisk).
Proof.
  destruct (getByLabel_first_match Sample.dupDisk
              [Sample.first; Sample.dupA; Sample.second; Sample.dupB] "dup" eq_refl)
    as [H _].
  apply (H 1%nat Sample.dupA); [reflexivity | reflexivity |].
  intros j b' Hj Hb'.
  assert (j = 0%nat) as -> by lia.
  injection Hb' as <-. discriminate.
Defined.

(** C3 as stated fails: the store holds ["first"; "dup"; "second"; "dup"],
    the last bookmark labelled ["dup"] is the one with id ["id-b"], at slot
    4, and [getByLabel "dup"] returns the one with id ["id-a"], at slot
    2. *)
Lemma getByLabel_not_last_match :
  fst (BookmarkStore.list_ Sample.dupDisk)
    = inr [Sample.first; Sample.dupA; Sample.second; Sample.dupB] /\
  last (filter (fun b => label b = "dup")
          [Sample.first; Sample.dupA; Sample.second; Sample.dupB])
    = Some Sample.dupB /\
  id Sample.dupB = "id-b" /\
  fst (BookmarkStore.getByLabel "dup" Sample.dupDisk) = inr (Some Sample.dupA) /\
  id Sample.dupA = "id-a".
Proof. repeat split. Qed.

(** *** Replacing a slot *)

(** C4 (amended). [replace slot ...] returns null if and only if [slot] is
    non-positive. For a positive slot it mints a bookmark with the
    generated id and the current time as [createdAt] and returns it; when
    [slot <= length], the minted bookmark occupies exactly position [slot]
    and every other entry is unchanged; when [slot > length], it is
    appended after the last entry, at position [length + 1], and the
    existing entries are unchanged. *)
Theorem replace_slot (env : Env) (d : Disk) (l : list Bookmark) (slot : Z)
  (lbl : string) (k : BookmarkKind) (tg : TmuxTarget) (fb : TmuxFallback)
  (c : option string) :
  fst (BookmarkStore.list_ d) = inr l ->
  (fst (BookmarkStore.replace env slot lbl k tg fb c d) = inr None <-> slot <= 0) /\
  (slot <= 0 -> BookmarkStore.replace env slot lbl k tg fb c d = (inr None, d)) /\
  (0 < slot -> writable d = true ->
   exists d' l' new,
     BookmarkStore.replace env slot lbl k tg fb c d = (inr (Some new), d') /\
     fst (BookmarkStore.list_ d') = inr l' /\
     id new = randomUUID env /\
     createdAt (meta new) = nowCreatedAt env /\
     label new = lbl /\ kind new = k /\ target new = tg /\ fallback new = fb /\
     (slot <= Z.of_nat (length l) ->
      length l' = length l /\
      l' !! Z.to_nat (slot - 1) = Some new /\
      (forall j, j <> Z.to_nat (slot - 1) -> l' !! j = l !! j)) /\
     (Z.of_nat (length l) < slot -> l' = l ++ [new])).
Proof.
  intros Hl. apply list_read in Hl as (data & Hread & <-).
  assert (Hnull : slot <= 0 ->
            BookmarkStore.replace env slot lbl k tg fb c d = (inr None, d)).
  { intros Hs. unfold BookmarkStore.replace. run_store Hread.
    destruct (decide _) as [_ | Hpos]; [reflexivity | lia]. }
  repeat apply conj.
  - intros Hr. destruct (Z_le_gt_dec slot 0) as [Hle | Hgt]; [assumption | exfalso].
    revert Hr. unfold BookmarkStore.replace. run_store Hread.
    destruct (decide (slot - 1 < 0)) as [Hneg | _]; [lia |].
    unfold BookmarkStore.write, push.
    destruct (decide _); destruct (writable d); discriminate.
  - intros Hs. by rewrite Hnull.
  - exact Hnull.
  - intros Hpos Hw.
    set (new := BookmarkStore.mint env lbl k tg fb c).
    destruct (decide (Z.of_nat (length (items data)) <= slot - 1)) as [Hext | Hin].
    + exists {| file := Json (setItems data (items data ++ [new])); writable := true |},
             (items data ++ [new]), new.
      repeat apply conj; try reflexivity.
      * unfold BookmarkStore.replace. run_store Hread.
        destruct (decide (slot - 1 < 0)) as [Hneg | _]; [lia |].
        destruct (decide _) as [_ | Hno]; [| contradiction].
        fold new. unfold push, bind. by rewrite write_ok by assumption.
      * apply list_written.
      * lia.
    + exists {| file := Json (setItems data (<[Z.to_nat (slot - 1) := new]> (items data)));
                writable := true |},
             (<[Z.to_nat (slot - 1) := new]> (items data)), new.
      repeat apply conj; try reflexivity.
      * unfold BookmarkStore.replace. run_store Hread.
        destruct (decide (slot - 1 < 0)) as [Hneg | _]; [lia |].
        destruct (decide _) as [Hyes | _]; [contradiction |].
        fold new. unfold bind. by rewrite write_ok by assumption.
      * apply list_written.
      * intros Hle. repeat apply conj.
        -- apply length_insert.
        -- apply list_lookup_insert_eq. lia.
        -- intros j Hne. apply list_lookup_insert_ne. congruence.
      * lia.
Qed.

(** Replacing slot 2 of three bookmarks. *)
Lemma replace_slot_witness :
  exists d' l' new,
    BookmarkStore.replace Sample.env 2 "fresh" KSession
      (mkTarget (Some "$2") None None) Sample.noFallback None Sample.threeDisk
      = (inr (Some new), d') /\
    fst (BookmarkStore.list_ d') = inr l' /\
    id new = "id-new" /\
    createdAt (meta new) = 200 /\
    label new = "fresh" /\ kind new = KSession /\
    target new = mkTarget (Some "$2") None None /\
    fallback new = Sample.noFallback /\
    (2 <= Z.of_nat (length [Sample.first; Sample.second; Sample.third]) ->
     length l' = length [Sample.first; Sample.second; Sample.third] /\
     l' !! Z.to_nat (2 - 1) = Some new /\
     (forall j, j <> Z.to_nat (2 - 1) ->
        l' !! j = [Sample.first; Sample.second; Sample.third] !! j)) /\
    (Z.of_nat (length [Sample.first; Sample.second; Sample.third]) < 2 ->
     l' = [Sample.first; Sample.second; Sample.third] ++ [new]).
Proof.
  destruct (replace_slot Sample.env Sample.threeDisk
              [Sample.first; Sample.second; Sample.third] 2 "fresh" KSession
              (mkTarget (Some "$2") None None) Sample.noFallback None eq_refl)
    as (_ & _ & H).
  apply H; [lia | reflexivity].
Defined.

(** C4 as stated fails for a slot beyond [length + 1]: with one stored
    bookmark, [replace 3 ...] returns the minted bookmark, which then sits
    at position 2, and position 3 does not exist. *)
Lemma replace_beyond_end :
  let r := BookmarkStore.replace Sample.env 3 "fresh" KSession
             (mkTarget (Some "$2") None None) Sample.noFallback None Sample.oneDisk in
  let new := BookmarkStore.mint Sample.env "fresh" KSession
               (mkTarget (Some "$2") None None) Sample.noFallback None in
  fst (BookmarkStore.list_ Sample.oneDisk) = inr [Sample.first] /\
  fst r = inr (Some new) /\
  fst (BookmarkStore.list_ (snd r)) = inr [Sample.first; new] /\
  [Sample.first; new] !! Z.to_nat (3 - 1) = None.
Proof. repeat split. Qed.

(** *** Schema versions *)

(** C2 (amended). A file whose version is greater than the current schema
    version is not rejected: [read] returns its items, unchanged, under the
    current schema version, and leaves the file as it is; [migrate] rewrites
    the version of such an envelope to the current one. *)
Theorem read_future_version (d : Disk) (content : BookmarksFile) :
  file d = Json content ->
  CURRENT_SCHEMA_VERSION < version content ->
  BookmarkStore.migrate content
    = {| version := CURRENT_SCHEMA_VERSION; items := items content |} /\
  BookmarkStore.read d
    = (inr {| version := CURRENT_SCHEMA_VERSION; items := items content |}, d).
Proof.
  intros Hfile Hv.
  assert (Hm : BookmarkStore.migrate content
               = {| version := CURRENT_SCHEMA_VERSION; items := items content |}).
  { unfold BookmarkStore.migrate. destruct (decide _) as [Heq | _]; [lia | reflexivity]. }
  split; [assumption |].
  unfold BookmarkStore.read. by rewrite Hfile, Hm.
Qed.

(** A file at version 2. *)
Lemma read_future_version_witness :
  BookmarkStore.migrate {| version := 2; items := [Sample.first; Sample.second] |}
    = {| version := 1; items := [Sample.first; Sample.second] |} /\
  BookmarkStore.read Sample.futureDisk
    = (inr {| version := 1; items := [Sample.first; Sample.second] |}, Sample.futureDisk).
Proof.
  apply (read_future_version Sample.futureDisk
           {| version := 2; items := [Sample.first; Sample.second] |}).
  - reflexivity.
  - unfold CURRENT_SCHEMA_VERSION. simpl. lia.
Defined.

(** C2 as stated fails: a readable file at version 2 is read without error,
    as a version 1 envelope. The only read the store rejects is one that
    fails with an I/O error. *)
Lemma read_accepts_future_version :
  file Sample.futureDisk = Json {| version := 2; items := [Sample.first; Sample.second] |} /\
  CURRENT_SCHEMA_VERSION = 1 /\
  fst (BookmarkStore.read Sample.futureDisk)
    = inr {| version := 1; items := [Sample.first; Sample.second] |} /\
  fst (BookmarkStore.read {| file := Unreadable; writable := true |})
    = inl PersistenceFailure.
Proof. repeat split. Qed.

(** * Further properties of the store *)

Section StoreRuns.

Import BookmarkStore.

(** [read] always returns an envelope at the current schema version. *)
Lemma list_read_current d l :
  fst (list_ d) = inr l ->
  read d = (inr {| version := CURRENT_SCHEMA_VERSION; items := l |}, d).
Proof.
  unfold list_, bind, ret, read.
  destruct (file d) as [| | | content]; simpl; try discriminate;
    try (intros [= <-]; reflexivity).
  intros [= <-]. unfold migrate.
  destruct (decide _) as [Hv | _]; [| reflexivity].
  destruct content as [v its]. simpl in *. by subst v.
Qed.

Lemma list_saved l : list_ (saved l) = (inr l, saved l).
Proof. reflexivity. Qed.

Lemma write_saved d l :
  writable d = true ->
  write {| version := CURRENT_SCHEMA_VERSION; items := l |} d = (inr tt, saved l).
Proof. intros Hw. unfold write. by rewrite Hw. Qed.

Lemma write_fails data d :
  writable d = false -> write data d = (inl PersistenceFailure, d).
Proof. intros Hw. unfold write. by rewrite Hw. Qed.

Lemma get_run d l i :
  fst (list_ d) = inr l ->
  get i d = (inr (find (fun b => id b = i) l), d).
Proof.
  intros Hl. apply list_read_current in Hl.
  unfold get. by run_store Hl.
Qed.

Lemma getByLabel_run d l lbl :
  fst (list_ d) = inr l ->
  getByLabel lbl d = (inr (find (fun b => label b = lbl) l), d).
Proof.
  intros Hl. apply list_read_current in Hl.
  unfold getByLabel. by run_store Hl.
Qed.

Lemma getBySlot_run d l k :
  fst (list_ d) = inr l ->
  getBySlot k d
  = (inr (if decide (1 <= k <= Z.of_nat (length l)) then l !! Z.to_nat (k - 1) else None), d).
Proof.
  intros Hl. apply list_read_current in Hl.
  unfold getBySlot. run_store Hl. simpl.
  destruct (decide (k - 1 < 0 \/ _)), (decide (1 <= k <= _)); try reflexivity; lia.
Qed.

Lemma add_run env d l lbl k tg fb c :
  fst (list_ d) = inr l -> writable d = true ->
  add env lbl k tg fb c d
  = (inr (mint env lbl k tg fb c), saved (l ++ [mint env lbl k tg fb c])).
Proof.
  intros Hl Hw. apply list_read_current in Hl.
  unfold add. run_store Hl. unfold bind, setItems, push. simpl.
  by rewrite write_saved.
Qed.

Lemma removeBySlot_run d l k :
  fst (list_ d) = inr l -> writable d = true ->
  1 <= k <= Z.of_nat (length l) ->
  removeBySlot k d = (inr true, saved (delete (Z.to_nat (k - 1)) l)).
Proof.
  intros Hl Hw Hk. apply list_read_current in Hl.
  unfold removeBySlot. run_store Hl.
  destruct (decide _) as [Hout | _]; [simpl in Hout; lia |].
  rewrite splice_remove. unfold bind, setItems. simpl.
  by rewrite write_saved.
Qed.

Lemma removeBySlot_out d l k :
  fst (list_ d) = inr l ->
  ~ (1 <= k <= Z.of_nat (length l)) ->
  removeBySlot k d = (inr false, d).
Proof.
  intros Hl Hk. apply list_read_current in Hl.
  unfold removeBySlot. run_store Hl. simpl.
  destruct (decide _) as [_ | Hin]; [reflexivity | lia].
Qed.

Lemma remove_run d l i index b :
  fst (list_ d) = inr l -> writable d = true ->
  list_find (fun b => id b = i) l = Some (index, b) ->
  remove i d = (inr true, saved (delete index l)).
Proof.
  intros Hl Hw Hfind. apply list_read_current in Hl.
  unfold remove. run_store Hl. unfold findIndex. cbn [items]. rewrite Hfind.
  cbn [fmap option_fmap option_map fst].
  rewrite splice_remove. unfold bind, setItems. simpl.
  by rewrite write_saved.
Qed.

Lemma remove_absent d l i :
  fst (list_ d) = inr l ->
  list_find (fun b => id b = i) l = None ->
  remove i d = (inr false, d).
Proof.
  intros Hl Hfind. apply list_read_current in Hl.
  unfold remove. run_store Hl. simpl. unfold findIndex. by rewrite Hfind.
Qed.

Lemma rename_run d l i newLabel index b :
  fst (list_ d) = inr l -> writable d = true ->
  list_find (fun b => id b = i) l = Some (index, b) ->
  rename i newLabel d = (inr true, saved (<[index := setLabel b newLabel]> l)).
Proof.
  intros Hl Hw Hfind. apply list_read_current in Hl.
  unfold rename. run_store Hl. simpl. rewrite Hfind.
  unfold bind, setItems. simpl. by rewrite write_saved.
Qed.

Lemma touch_run env d l i index b :
  fst (list_ d) = inr l -> writable d = true ->
  list_find (fun b => id b = i) l = Some (index, b) ->
  touch env i d = (inr tt, saved (<[index := setLastUsed b (nowLastUsed env)]> l)).
Proof.
  intros Hl Hw Hfind. apply list_read_current in Hl.
  unfold touch. run_store Hl. simpl. rewrite Hfind.
  unfold setItems. simpl. by rewrite write_saved.
Qed.

Lemma touch_absent env d l i :
  fst (list_ d) = inr l ->
  list_find (fun b => id b = i) l = None ->
  touch env i d = (inr tt, d).
Proof.
  intros Hl Hfind. apply list_read_current in Hl.
  unfold touch. run_store Hl. simpl. by rewrite Hfind.
Qed.

Lemma move_run d l f t b :
  fst (list_ d) = inr l -> writable d = true ->
  1 <= f <= Z.of_nat (length l) -> 1 <= t <= Z.of_nat (length l) ->
  l !! Z.to_nat (f - 1) = Some b ->
  move f t d = (inr true, saved (moved l (Z.to_nat (f - 1)) (Z.to_nat (t - 1)) b)).
Proof.
  intros Hl Hw Hf Ht Hb. apply list_read_current in Hl.
  unfold move. run_store Hl. cbn [items].
  destruct (decide _) as [Hout | _]; [lia |].
  rewrite (surjective_pairing (splice l _ 1 [])).
  rewrite (splice_removed _ _ b Hb), splice_remove, splice_insert.
  unfold bind, setItems. simpl. by rewrite write_saved.
Qed.

Lemma replace_run_in env d l slot lbl k tg fb c :
  fst (list_ d) = inr l -> writable d = true ->
  1 <= slot <= Z.of_nat (length l) ->
  replace env slot lbl k tg fb c d
  = (inr (Some (mint env lbl k tg fb c)),
     saved (<[Z.to_nat (slot - 1) := mint env lbl k tg fb c]> l)).
Proof.
  intros Hl Hw Hs. apply list_read_current in Hl.
  unfold replace. run_store Hl. simpl.
  destruct (decide (slot - 1 < 0)) as [Hneg | _]; [lia |].
  destruct (decide _) as [Hext | _]; [lia |].
  unfold bind, setItems. simpl. by rewrite write_saved.
Qed.

(** The first element that satisfies a predicate, when all ids differ. *)
Lemma list_find_id l index b :
  NoDup (id <$> l) -> l !! index = Some b ->
  list_find (fun b' => id b' = id b) l = Some (index, b).
Proof.
  intros Hnd Hb. apply list_find_Some. repeat split; [assumption |].
  intros j y Hj Hlt Hid.
  assert (j = index); [| lia].
  eapply NoDup_lookup; [exact Hnd | |]; rewrite list_lookup_fmap.
  - by rewrite Hj.
  - rewrite Hb. simpl. by rewrite Hid.
Qed.

End StoreRuns.

(** ** Adding *)

(** [add] appends: it returns the minted bookmark, the stored sequence
    grows by that bookmark at its end, the new bookmark answers at slot
    [length + 1] and every earlier slot answers as before. *)
Theorem add_appends_at_end (env : Env) (d : Disk) (l : list Bookmark)
  (lbl : string) (k : BookmarkKind) (tg : TmuxTarget) (fb : TmuxFallback)
  (c : option string) :
  fst (BookmarkStore.list_ d) = inr l -> writable d = true ->
  let b := BookmarkStore.mint env lbl k tg fb c in
  let d' := snd (BookmarkStore.add env lbl k tg fb c d) in
  fst (BookmarkStore.add env lbl k tg fb c d) = inr b /\
  fst (BookmarkStore.list_ d') = inr (l ++ [b]) /\
  fst (BookmarkStore.getBySlot (Z.of_nat (length l) + 1) d') = inr (Some b) /\
  (forall j, 1 <= j <= Z.of_nat (length l) ->
     fst (BookmarkStore.getBySlot j d') = fst (BookmarkStore.getBySlot j d)).
Proof.
  intros Hl Hw b d'. subst d'. rewrite (add_run env d l) by assumption.
  fold b. cbn [fst snd]. repeat apply conj; try reflexivity.
  - rewrite (getBySlot_run _ (l ++ [b])) by reflexivity. cbn [fst].
    destruct (decide _) as [_ | Hout]; [| rewrite length_app in Hout; simpl in Hout; lia].
    replace (Z.to_nat (Z.of_nat (length l) + 1 - 1)) with (length l) by lia.
    by rewrite list_lookup_middle.
  - intros j Hj.
    rewrite (getBySlot_run _ (l ++ [b])) by reflexivity.
    rewrite (getBySlot_run d l) by assumption. cbn [fst].
    destruct (decide _) as [_ | Hout]; [| rewrite length_app in Hout; simpl in Hout; lia].
    destruct (decide _) as [_ | Hout]; [| lia].
    rewrite lookup_app_l by lia. reflexivity.
Qed.

Lemma add_appends_at_end_witness :
  let b := BookmarkStore.mint Sample.env "fourth" KWindow
             (mkTarget (Some "$1") (Some "@2") None) Sample.noFallback None in
  let d' := snd (BookmarkStore.add Sample.env "fourth" KWindow
                   (mkTarget (Some "$1") (Some "@2") None) Sample.noFallback None
                   Sample.threeDisk) in
  fst (BookmarkStore.list_ d')
    = inr ([Sample.first; Sample.second; Sample.third] ++ [b]) /\
  fst (BookmarkStore.getBySlot 4 d') = inr (Some b).
Proof.
  intros b d'.
  destruct (add_appends_at_end Sample.env Sample.threeDisk
              [Sample.first; Sample.second; Sample.third] "fourth" KWindow
              (mkTarget (Some "$1") (Some "@2") None) Sample.noFallback None
              eq_refl eq_refl) as (_ & H1 & H2 & _).
  split; [exact H1 | exact H2].
Defined.

(** Round trip through the file: after [add], [get] with the new id
    returns the added bookmark, field for field, provided no stored bookmark
    already had that id; and whatever [get] found before, it still finds. *)
Theorem add_then_get (env : Env) (d : Disk) (l : list Bookmark)
  (lbl : string) (k : BookmarkKind) (tg : TmuxTarget) (fb : TmuxFallback)
  (c : option string) :
  fst (BookmarkStore.list_ d) = inr l -> writable d = true ->
  let b := BookmarkStore.mint env lbl k tg fb c in
  let d' := snd (BookmarkStore.add env lbl k tg fb c d) in
  ((forall j b', l !! j = Some b' -> id b' <> randomUUID env) ->
   fst (BookmarkStore.get (randomUUID env) d') = inr (Some b)) /\
  (forall i b0, fst (BookmarkStore.get i d) = inr (Some b0) ->
                fst (BookmarkStore.get i d') = inr (Some b0)).
Proof.
  intros Hl Hw b d'. subst d'. rewrite (add_run env d l) by assumption.
  fold b. cbn [fst snd]. split.
  - intros Hfresh. rewrite (get_run _ (l ++ [b])) by reflexivity. cbn [fst].
    unfold find. rewrite list_find_app_r.
    + simpl. destruct (decide _) as [_ | Hne]; [reflexivity | by destruct Hne].
    + apply list_find_None, Forall_forall. intros x Hx.
      apply list_elem_of_lookup_1 in Hx as [j Hj]. by apply (Hfresh j x).
  - intros i b0. rewrite (get_run d l) by assumption.
    rewrite (get_run _ (l ++ [b])) by reflexivity. cbn [fst]. unfold find.
    destruct (list_find (fun b1 => id b1 = i) l) as [[idx x] |] eqn:Hfind;
      [| discriminate].
    intros [= <-]. by rewrite (list_find_app_l _ l [b] idx x).
Qed.

Lemma add_then_get_witness :
  let b := BookmarkStore.mint Sample.env "fourth" KWindow
             (mkTarget (Some "$1") (Some "@2") None) Sample.noFallback None in
  let d' := snd (BookmarkStore.add Sample.env "fourth" KWindow
                   (mkTarget (Some "$1") (Some "@2") None) Sample.noFallback None
                   Sample.threeDisk) in
  fst (BookmarkStore.get "id-new" d') = inr (Some b).
Proof.
  intros b d'.
  destruct (add_then_get Sample.env Sample.threeDisk
              [Sample.first; Sample.second; Sample.third] "fourth" KWindow
              (mkTarget (Some "$1") (Some "@2") None) Sample.noFallback None
              eq_refl eq_refl) as [H _].
  apply H. intros j b' Hj.
  destruct j as [| [| [| j]]]; simpl in Hj; [| | | discriminate];
    injection Hj as <-; discriminate.
Defined.

(** Adding and then removing the last slot gives back the stored
    sequence. *)
Theorem add_then_removeBySlot (env : Env) (d : Disk) (l : list Bookmark)
  (lbl : string) (k : BookmarkKind) (tg : TmuxTarget) (fb : TmuxFallback)
  (c : option string) :
  fst (BookmarkStore.list_ d) = inr l -> writable d = true ->
  let d' := snd (BookmarkStore.add env lbl k tg fb c d) in
  let r := BookmarkStore.removeBySlot (Z.of_nat (length l) + 1) d' in
  fst r = inr true /\ fst (BookmarkStore.list_ (snd r)) = inr l.
Proof.
  intros Hl Hw d' r. subst r d'. rewrite (add_run env d l) by assumption. cbn [fst snd].
  set (b := BookmarkStore.mint env lbl k tg fb c).
  rewrite (removeBySlot_run _ (l ++ [b])); try reflexivity.
  - cbn [fst snd]. rewrite list_saved. cbn [fst]. split; [reflexivity |]. f_equal.
    replace (Z.to_nat (Z.of_nat (length l) + 1 - 1)) with (length l) by lia.
    rewrite delete_middle. apply app_nil_r.
  - rewrite length_app. simpl. lia.
Qed.

Lemma add_then_removeBySlot_witness :
  let d' := snd (BookmarkStore.add Sample.env "fourth" KWindow
                   (mkTarget (Some "$1") (Some "@2") None) Sample.noFallback None
                   Sample.threeDisk) in
  let r := BookmarkStore.removeBySlot 4 d' in
  fst r = inr true /\
  fst (BookmarkStore.list_ (snd r)) = inr [Sample.first; Sample.second; Sample.third].
Proof.
  apply (add_then_removeBySlot Sample.env Sample.threeDisk
           [Sample.first; Sample.second; Sample.third] "fourth" KWindow
           (mkTarget (Some "$1") (Some "@2") None) Sample.noFallback None
           eq_refl eq_refl).
Defined.

(** ** Lookup and removal by id *)

Section FindFacts.

Context {A : Type} (P : A -> Prop) `{!forall x, Decision (P x)}.

(** Deleting an element that does not satisfy [P] does not change what
    [find] returns. *)
Lemma find_delete_other (l : list A) (idx : nat) (x : A) :
  l !! idx = Some x -> ~ P x -> find P (delete idx l) = find P l.
Proof.
  unfold find. revert idx. induction l as [| y l IH]; intros idx Hx HP; [done |].
  destruct idx as [| idx]; simpl in *.
  - injection Hx as ->. destruct (decide (P x)); [contradiction |].
    destruct (list_find P l) as [[? ?] |]; reflexivity.
  - destruct (decide (P y)); [reflexivity |].
    specialize (IH idx Hx HP).
    destruct (list_find P (delete idx l)) as [[? ?] |],
             (list_find P l) as [[? ?] |]; simpl in *; congruence.
Qed.

(** Overwriting an element by one that agrees with it on [P] keeps the
    position [find] stops at. *)
Lemma list_find_insert_same (l : list A) (idx : nat) (x y : A) :
  list_find P l = Some (idx, x) -> P y ->
  list_find P (<[idx := y]> l) = Some (idx, y).
Proof.
  intros Hfind Hy. apply list_find_Some in Hfind as (Hx & HPx & Hfirst).
  apply list_find_Some. repeat split.
  - apply list_lookup_insert_eq. by eapply lookup_lt_Some.
  - assumption.
  - intros j z Hj Hlt. rewrite list_lookup_insert_ne in Hj by lia.
    by apply (Hfirst j z).
Qed.

End FindFacts.

(** [get] returns the first stored bookmark with the id, and null exactly
    when no stored bookmark has it. *)
Theorem get_first_with_id (d : Disk) (l : list Bookmark) (i : string) :
  fst (BookmarkStore.list_ d) = inr l ->
  (forall b,
     BookmarkStore.get i d = (inr (Some b), d) <->
     exists idx, l !! idx = Some b /\ id b = i /\
                 forall j b', (j < idx)%nat -> l !! j = Some b' -> id b' <> i) /\
  (BookmarkStore.get i d = (inr None, d) <->
   forall j b', l !! j = Some b' -> id b' <> i).
Proof.
  intros Hl. rewrite (get_run d l) by assumption. unfold find. split.
  - intros b. split.
    + destruct (list_find (fun b => id b = i) l) as [[idx x] |] eqn:Hfind;
        [| discriminate].
      intros [= <-]. apply list_find_Some in Hfind as (Hx & Hid & Hfirst).
      exists idx. repeat split; [assumption.. |].
      intros j b' Hlt Hj. by apply (Hfirst j b').
    + intros (idx & Hb & Hid & Hfirst).
      assert (Hfind : list_find (fun b => id b = i) l = Some (idx, b)).
      { apply list_find_Some. repeat split; [assumption.. |].
        intros j y Hj Hlt. by apply (Hfirst j y). }
      by rewrite Hfind.
  - split.
    + destruct (list_find (fun b => id b = i) l) as [[idx x] |] eqn:Hfind;
        [discriminate |].
      intros _ j b' Hj. apply list_find_None in Hfind.
      rewrite Forall_forall in Hfind. apply Hfind.
      by eapply list_elem_of_lookup_2.
    + intros Hnone.
      assert (Hfind : list_find (fun b => id b = i) l = None).
      { apply list_find_None, Forall_forall. intros x Hx.
        apply list_elem_of_lookup_1 in Hx as [j Hj]. by apply (Hnone j x). }
      by rewrite Hfind.
Qed.

Lemma get_first_with_id_witness :
  BookmarkStore.get "id-9" Sample.threeDisk = (inr None, Sample.threeDisk) <->
  forall j b', [Sample.first; Sample.second; Sample.third] !! j = Some b' ->
               id b' <> "id-9".
Proof.
  apply (get_first_with_id Sample.threeDisk
           [Sample.first; Sample.second; Sample.third] "id-9" eq_refl).
Defined.

(** [remove] deletes the first stored bookmark with the id and returns
    true, every later bookmark moving down one slot; when no stored
    bookmark has the id it returns false and leaves the file as it is. *)
Theorem remove_deletes_first_with_id (d : Disk) (l : list Bookmark) (i : string) :
  fst (BookmarkStore.list_ d) = inr l ->
  (forall idx b,
     l !! idx = Some b -> id b = i ->
     (forall j b', (j < idx)%nat -> l !! j = Some b' -> id b' <> i) ->
     writable d = true ->
     let r := BookmarkStore.remove i d in
     fst r = inr true /\
     exists l',
       fst (BookmarkStore.list_ (snd r)) = inr l' /\
       length l = S (length l') /\
       (forall j, (j < idx)%nat -> l' !! j = l !! j) /\
       (forall j, (idx <= j)%nat -> l' !! j = l !! S j)) /\
  ((forall j b', l !! j = Some b' -> id b' <> i) ->
   BookmarkStore.remove i d = (inr false, d)).
Proof.
  intros Hl. split.
  - intros idx b Hb Hid Hfirst Hw r. subst r.
    assert (Hfind : list_find (fun b => id b = i) l = Some (idx, b)).
    { apply list_find_Some. repeat split; [assumption.. |].
      intros j y Hj Hlt. by apply (Hfirst j y). }
    rewrite (remove_run d l i idx b) by assumption. cbn [fst snd].
    split; [reflexivity |]. exists (delete idx l).
    repeat apply conj.
    + reflexivity.
    + rewrite length_delete by eauto.
      apply lookup_lt_Some in Hb. lia.
    + intros j Hj. by apply list_lookup_delete_lt.
    + intros j Hj. by apply list_lookup_delete_ge.
  - intros Hnone. apply (remove_absent d l); [assumption |].
    apply list_find_None, Forall_forall. intros x Hx.
    apply list_elem_of_lookup_1 in Hx as [j Hj]. by apply (Hnone j x).
Qed.

Lemma remove_deletes_first_with_id_witness :
  let r := BookmarkStore.remove "id-2" Sample.threeDisk in
  fst r = inr true /\
  exists l',
    fst (BookmarkStore.list_ (snd r)) = inr l' /\
    length [Sample.first; Sample.second; Sample.third] = S (length l') /\
    (forall j, (j < 1)%nat ->
       l' !! j = [Sample.first; Sample.second; Sample.third] !! j) /\
    (forall j, (1 <= j)%nat ->
       l' !! j = [Sample.first; Sample.second; Sample.third] !! S j).
Proof.
  destruct (remove_deletes_first_with_id Sample.threeDisk
              [Sample.first; Sample.second; Sample.third] "id-2" eq_refl) as [H _].
  apply (H 1%nat Sample.second); try reflexivity.
  intros j b' Hlt Hj. assert (j = 0%nat) as -> by lia.
  injection Hj as <-. discriminate.
Defined.

(** With distinct ids, a removed bookmark is gone and every other id
    resolves to the bookmark it resolved to before. *)
Theorem remove_then_get (d : Disk) (l : list Bookmark) (idx : nat) (b : Bookmark) :
  fst (BookmarkStore.list_ d) = inr l -> writable d = true ->
  NoDup (id <$> l) -> l !! idx = Some b ->
  let d' := snd (BookmarkStore.remove (id b) d) in
  fst (BookmarkStore.get (id b) d') = inr None /\
  (forall i, i <> id b ->
     fst (BookmarkStore.get i d') = fst (BookmarkStore.get i d)).
Proof.
  intros Hl Hw Hnd Hb d'. subst d'.
  rewrite (remove_run d l (id b) idx b) by auto using list_find_id.
  cbn [snd]. split.
  - rewrite (get_run _ (delete idx l)) by reflexivity. cbn [fst]. unfold find.
    assert (Hfind : list_find (fun b' => id b' = id b) (delete idx l) = None).
    { apply list_find_None, Forall_forall. intros x Hx Hid.
      apply list_elem_of_lookup_1 in Hx as [j Hj].
      destruct (decide (j < idx)%nat) as [Hlt | Hge].
      - rewrite list_lookup_delete_lt in Hj by assumption.
        assert (j = idx); [| lia].
        eapply NoDup_lookup; [exact Hnd | |]; rewrite list_lookup_fmap.
        + by rewrite Hj.
        + rewrite Hb. simpl. by rewrite Hid.
      - rewrite list_lookup_delete_ge in Hj by lia.
        assert (S j = idx); [| lia].
        eapply NoDup_lookup; [exact Hnd | |]; rewrite list_lookup_fmap.
        + by rewrite Hj.
        + rewrite Hb. simpl. by rewrite Hid. }
    by rewrite Hfind.
  - intros i Hne.
    rewrite (get_run _ (delete idx l)) by reflexivity.
    rewrite (get_run d l) by assumption. cbn [fst]. f_equal.
    apply (find_delete_other _ l idx b); [assumption | congruence].
Qed.

Lemma remove_then_get_witness :
  let d' := snd (BookmarkStore.remove "id-2" Sample.threeDisk) in
  fst (BookmarkStore.get "id-2" d') = inr None /\
  (forall i, i <> "id-2" ->
     fst (BookmarkStore.get i d') = fst (BookmarkStore.get i Sample.threeDisk)).
Proof.
  apply (remove_then_get Sample.threeDisk
           [Sample.first; Sample.second; Sample.third] 1 Sample.second
           eq_refl eq_refl).
  - apply (bool_decide_unpack _). vm_compute. exact I.
  - reflexivity.
Defined.

(** ** Renaming and touching *)

(** After a successful [rename], [get] with the same id returns the
    bookmark under its new label, and the sequence of ids is the one it
    was. *)
Theorem rename_then_get (d : Disk) (l : list Bookmark) (i newLabel : string)
  (idx : nat) (b : Bookmark) :
  fst (BookmarkStore.list_ d) = inr l -> writable d = true ->
  l !! idx = Some b -> id b = i ->
  let d' := snd (BookmarkStore.rename i newLabel d) in
  exists b' l',
    fst (BookmarkStore.get i d') = inr (Some b') /\
    label b' = newLabel /\ id b' = i /\
    fst (BookmarkStore.list_ d') = inr l' /\
    id <$> l' = id <$> l.
Proof.
  intros Hl Hw Hb Hid d'. subst d'.
  destruct (list_find (fun b => id b = i) l) as [[fidx old] |] eqn:Hfind.
  2: { apply list_find_None in Hfind. rewrite Forall_forall in Hfind.
       destruct (Hfind b); [by eapply list_elem_of_lookup_2 | assumption]. }
  rewrite (rename_run d l i newLabel fidx old) by assumption. cbn [snd].
  pose proof Hfind as Hfound.
  apply list_find_Some in Hfound as (Hold & Holdid & _).
  exists (setLabel old newLabel), (<[fidx := setLabel old newLabel]> l).
  repeat apply conj; try reflexivity; try assumption.
  - rewrite (get_run _ (<[fidx := setLabel old newLabel]> l)) by reflexivity.
    cbn [fst]. unfold find.
    by rewrite (list_find_insert_same _ l fidx old (setLabel old newLabel)).
  - rewrite list_fmap_insert. apply list_insert_id.
    rewrite list_lookup_fmap, Hold. reflexivity.
Qed.

Lemma rename_then_get_witness :
  let d' := snd (BookmarkStore.rename "id-2" "renamed" Sample.threeDisk) in
  exists b' l',
    fst (BookmarkStore.get "id-2" d') = inr (Some b') /\
    label b' = "renamed" /\ id b' = "id-2" /\
    fst (BookmarkStore.list_ d') = inr l' /\
    id <$> l' = id <$> [Sample.first; Sample.second; Sample.third].
Proof.
  apply (rename_then_get Sample.threeDisk
           [Sample.first; Sample.second; Sample.third] "id-2" "renamed"
           1 Sample.second); reflexivity.
Defined.

(** [touch] sets [meta.lastUsed] of the first stored bookmark with the id
    to the current time and changes nothing else, in that bookmark or in
    the sequence; with no such bookmark it does not write at all, so it
    returns normally even when the file cannot be written. *)
Theorem touch_updates_only_lastUsed (env : Env) (d : Disk) (l : list Bookmark)
  (i : string) :
  fst (BookmarkStore.list_ d) = inr l ->
  (forall idx b,
     l !! idx = Some b -> id b = i ->
     (forall j b', (j < idx)%nat -> l !! j = Some b' -> id b' <> i) ->
     writable d = true ->
     let r := BookmarkStore.touch env i d in
     fst r = inr tt /\
     exists l' b',
       fst (BookmarkStore.list_ (snd r)) = inr l' /\
       length l' = length l /\
       l' !! idx = Some b' /\
       lastUsed (meta b') = nowLastUsed env /\
       id b' = id b /\ label b' = label b /\ kind b' = kind b /\
       target b' = target b /\ fallback b' = fallback b /\
       cwd (meta b') = cwd (meta b) /\ host (meta b') = host (meta b) /\
       createdAt (meta b') = createdAt (meta b) /\
       (forall j, j <> idx -> l' !! j = l !! j)) /\
  ((forall j b', l !! j = Some b' -> id b' <> i) ->
   BookmarkStore.touch env i d = (inr tt, d)).
Proof.
  intros Hl. split.
  - intros idx b Hb Hid Hfirst Hw r. subst r.
    assert (Hfind : list_find (fun b => id b = i) l = Some (idx, b)).
    { apply list_find_Some. repeat split; [assumption.. |].
      intros j y Hj Hlt. by apply (Hfirst j y). }
    rewrite (touch_run env d l i idx b) by assumption. cbn [fst snd].
    split; [reflexivity |].
    exists (<[idx := setLastUsed b (nowLastUsed env)]> l),
           (setLastUsed b (nowLastUsed env)).
    repeat apply conj; try reflexivity.
    + apply length_insert.
    + apply list_lookup_insert_eq. by eapply lookup_lt_Some.
    + intros j Hne. apply list_lookup_insert_ne. congruence.
  - intros Hnone. apply (touch_absent env d l); [assumption |].
    apply list_find_None, Forall_forall. intros x Hx.
    apply list_elem_of_lookup_1 in Hx as [j Hj]. by apply (Hnone j x).
Qed.

Lemma touch_updates_only_lastUsed_witness :
  BookmarkStore.touch Sample.env "id-9"
    {| file := file Sample.threeDisk; writable := false |}
  = (inr tt, {| file := file Sample.threeDisk; writable := false |}).
Proof.
  destruct (touch_updates_only_lastUsed Sample.env
              {| file := file Sample.threeDisk; writable := false |}
              [Sample.first; Sample.second; Sample.third] "id-9" eq_refl) as [_ H].
  apply H. intros j b' Hj.
  destruct j as [| [| [| j]]]; simpl in Hj; [| | | discriminate];
    injection Hj as <-; discriminate.
Defined.

(** ** Replacing *)

(** After [replace] on an occupied slot, [getBySlot] of that slot and, for
    a new id no stored bookmark had, [get] of the new id return the minted
    bookmark; with distinct stored ids, [get] of the replaced bookmark's id
    returns null. *)
Theorem replace_then_lookup (env : Env) (d : Disk) (l : list Bookmark) (slot : Z)
  (old : Bookmark) (lbl : string) (k : BookmarkKind) (tg : TmuxTarget)
  (fb : TmuxFallback) (c : option string) :
  fst (BookmarkStore.list_ d) = inr l -> writable d = true ->
  1 <= slot <= Z.of_nat (length l) ->
  l !! Z.to_nat (slot - 1) = Some old ->
  NoDup (id <$> l) ->
  (forall j b', l !! j = Some b' -> id b' <> randomUUID env) ->
  let new := BookmarkStore.mint env lbl k tg fb c in
  let d' := snd (BookmarkStore.replace env slot lbl k tg fb c d) in
  fst (BookmarkStore.getBySlot slot d') = inr (Some new) /\
  fst (BookmarkStore.get (randomUUID env) d') = inr (Some new) /\
  fst (BookmarkStore.get (id old) d') = inr None.
Proof.
  intros Hl Hw Hs Hold Hnd Hfresh new d'. subst d'.
  rewrite (replace_run_in env d l) by assumption. fold new. cbn [snd].
  set (idx := Z.to_nat (slot - 1)) in *.
  assert (Hidx : (idx < length l)%nat) by (by eapply lookup_lt_Some).
  repeat apply conj.
  - rewrite (getBySlot_run _ (<[idx := new]> l)) by reflexivity. cbn [fst].
    rewrite length_insert.
    destruct (decide _) as [_ | Hout]; [| lia].
    fold idx. by rewrite list_lookup_insert_eq.
  - rewrite (get_run _ (<[idx := new]> l)) by reflexivity. cbn [fst]. unfold find.
    assert (Hfind : list_find (fun b => id b = randomUUID env) (<[idx := new]> l)
                    = Some (idx, new)).
    { apply list_find_Some. repeat split.
      - by apply list_lookup_insert_eq.
      - intros j y Hj Hlt. rewrite list_lookup_insert_ne in Hj by lia.
        by apply (Hfresh j y). }
    by rewrite Hfind.
  - rewrite (get_run _ (<[idx := new]> l)) by reflexivity. cbn [fst]. unfold find.
    assert (Hfind : list_find (fun b => id b = id old) (<[idx := new]> l) = None).
    { apply list_find_None, Forall_forall. intros x Hx Hid.
      apply list_elem_of_lookup_1 in Hx as [j Hj].
      destruct (decide (j = idx)) as [-> | Hne].
      - rewrite list_lookup_insert_eq in Hj by assumption.
        injection Hj as <-. by apply (Hfresh idx old).
      - rewrite list_lookup_insert_ne in Hj by congruence.
        apply Hne. eapply NoDup_lookup; [exact Hnd | |]; rewrite list_lookup_fmap.
        + by rewrite Hj.
        + rewrite Hold. simpl. by rewrite Hid. }
    by rewrite Hfind.
Qed.

Lemma replace_then_lookup_witness :
  let new := BookmarkStore.mint Sample.env "fresh" KSession
               (mkTarget (Some "$2") None None) Sample.noFallback None in
  let d' := snd (BookmarkStore.replace Sample.env 1 "fresh" KSession
                   (mkTarget (Some "$2") None None) Sample.noFallback None
                   Sample.oneDisk) in
  fst (BookmarkStore.getBySlot 1 d') = inr (Some new) /\
  fst (BookmarkStore.get "id-new" d') = inr (Some new) /\
  fst (BookmarkStore.get "id-1" d') = inr None.
Proof.
  apply (replace_then_lookup Sample.env Sample.oneDisk [Sample.first] 1 Sample.first
           "fresh" KSession (mkTarget (Some "$2") None None) Sample.noFallback None
           eq_refl eq_refl).
  - simpl. lia.
  - reflexivity.
  - apply (bool_decide_unpack _). vm_compute. exact I.
  - intros j b' Hj. destruct j as [| j]; simpl in Hj; [| discriminate].
    injection Hj as <-. discriminate.
Defined.

(** ** Moving, continued *)

Section Moved.

Context {A : Type}.
Implicit Types l : list A.

Lemma take_delete_same l f : take f (delete f l) = take f l.
Proof.
  rewrite delete_take_drop.
  destruct (decide (f <= length l)%nat) as [Hle | Hgt].
  - apply take_app_length'. rewrite length_take. lia.
  - rewrite (drop_ge l (S f)) by lia. rewrite app_nil_r.
    rewrite take_take. f_equal. lia.
Qed.

Lemma drop_delete_same l f : (f <= length l)%nat -> drop f (delete f l) = drop (S f) l.
Proof.
  intros Hle. rewrite delete_take_drop.
  apply drop_app_length'. rewrite length_take. lia.
Qed.

Lemma moved_length l f t x :
  l !! f = Some x -> length (moved l f t x) = length l.
Proof.
  intros Hx. unfold moved. rewrite length_app. simpl.
  rewrite length_take, length_drop, length_delete by eauto.
  apply lookup_lt_Some in Hx. lia.
Qed.

Lemma delete_moved l f t x :
  l !! f = Some x -> (t < length l)%nat -> delete t (moved l f t x) = delete f l.
Proof.
  intros Hx Ht. unfold moved.
  assert (Hlen : length (take t (delete f l)) = t).
  { apply length_take_le. rewrite length_delete by eauto. lia. }
  rewrite <- Hlen at 1. rewrite delete_middle. apply take_drop.
Qed.

(** Moving back undoes the move. *)
Lemma moved_inverse l f t x :
  l !! f = Some x -> (t < length l)%nat -> moved (moved l f t x) t f x = l.
Proof.
  intros Hx Ht. unfold moved at 1. rewrite delete_moved by assumption.
  rewrite take_delete_same, drop_delete_same
    by (apply lookup_lt_Some in Hx; lia).
  by apply take_drop_middle.
Qed.

Lemma moved_lookup_before l f t x j :
  l !! f = Some x -> (t < length l)%nat -> (j < t)%nat ->
  moved l f t x !! j = if decide (j < f)%nat then l !! j else l !! S j.
Proof.
  intros Hx Ht Hj. unfold moved.
  rewrite lookup_app_l
    by (rewrite length_take, length_delete by eauto; lia).
  rewrite lookup_take_lt by assumption.
  destruct (decide (j < f)%nat).
  - by apply list_lookup_delete_lt.
  - apply list_lookup_delete_ge. lia.
Qed.

Lemma moved_lookup_after l f t x j :
  l !! f = Some x -> (t < length l)%nat -> (t < j)%nat ->
  moved l f t x !! j = if decide (j <= f)%nat then l !! pred j else l !! j.
Proof.
  intros Hx Ht Hj. unfold moved.
  assert (Hlen : length (take t (delete f l)) = t).
  { apply length_take_le. rewrite length_delete by eauto. lia. }
  rewrite lookup_app_r by lia. rewrite Hlen.
  destruct (j - t)%nat as [| k] eqn:Hk; [lia |]. simpl.
  rewrite lookup_drop. replace (t + k)%nat with (pred j) by lia.
  destruct (decide (j <= f)%nat).
  - apply list_lookup_delete_lt. lia.
  - rewrite list_lookup_delete_ge by lia. f_equal. lia.
Qed.

End Moved.

(** [move] shifts what lies between the two slots by one and touches
    nothing else: entries before both slots and after both slots stay,
    entries from [fromSlot + 1] to [toSlot] move down one slot when the
    bookmark moves forward, entries from [toSlot] to [fromSlot - 1] move up
    one slot when it moves backward, and the length is unchanged. *)
Theorem move_shifts_between (d : Disk) (l : list Bookmark) (fromSlot toSlot : Z) :
  fst (BookmarkStore.list_ d) = inr l -> writable d = true ->
  1 <= fromSlot <= Z.of_nat (length l) -> 1 <= toSlot <= Z.of_nat (length l) ->
  let f := Z.to_nat (fromSlot - 1) in
  let t := Z.to_nat (toSlot - 1) in
  exists l',
    fst (BookmarkStore.list_ (snd (BookmarkStore.move fromSlot toSlot d))) = inr l' /\
    length l' = length l /\
    l' !! t = l !! f /\
    (forall j, (j < f)%nat -> (j < t)%nat -> l' !! j = l !! j) /\
    (forall j, (f < j)%nat -> (t < j)%nat -> l' !! j = l !! j) /\
    (forall j, (f <= j)%nat -> (j < t)%nat -> l' !! j = l !! S j) /\
    (forall j, (t < j)%nat -> (j <= f)%nat -> l' !! j = l !! pred j).
Proof.
  intros Hl Hw Hf Ht f t.
  destruct (lookup_lt_is_Some_2 l f) as [b Hb]; [lia |].
  assert (Htl : (t < length l)%nat) by lia.
  rewrite (move_run d l fromSlot toSlot b) by assumption. cbn [snd]. fold f t.
  exists (moved l f t b). repeat apply conj.
  - reflexivity.
  - by apply moved_length.
  - rewrite Hb. by apply moved_lookup.
  - intros j Hjf Hjt. rewrite moved_lookup_before by assumption.
    destruct (decide _); [reflexivity | lia].
  - intros j Hjf Hjt. rewrite moved_lookup_after by assumption.
    destruct (decide _); [lia | reflexivity].
  - intros j Hjf Hjt. rewrite moved_lookup_before by assumption.
    destruct (decide _); [lia | reflexivity].
  - intros j Hjt Hjf. rewrite moved_lookup_after by assumption.
    destruct (decide _); [reflexivity | lia].
Qed.

Lemma move_shifts_between_witness :
  exists l',
    fst (BookmarkStore.list_ (snd (BookmarkStore.move 1 3 Sample.threeDisk))) = inr l' /\
    length l' = length [Sample.first; Sample.second; Sample.third] /\
    l' !! 2%nat = [Sample.first; Sample.second; Sample.third] !! 0%nat /\
    (forall j, (0 <= j)%nat -> (j < 2)%nat ->
       l' !! j = [Sample.first; Sample.second; Sample.third] !! S j).
Proof.
  destruct (move_shifts_between Sample.threeDisk
              [Sample.first; Sample.second; Sample.third] 1 3 eq_refl eq_refl)
    as (l' & H1 & H2 & H3 & _ & _ & H6 & _); [simpl; lia | simpl; lia |].
  exists l'. repeat split; assumption.
Defined.

(** Moving a bookmark and moving it back restores the stored sequence, and
    moving a slot onto itself keeps it. *)
Theorem move_back_restores (d : Disk) (l : list Bookmark) (fromSlot toSlot : Z) :
  fst (BookmarkStore.list_ d) = inr l -> writable d = true ->
  1 <= fromSlot <= Z.of_nat (length l) -> 1 <= toSlot <= Z.of_nat (length l) ->
  let d1 := snd (BookmarkStore.move fromSlot toSlot d) in
  let r := BookmarkStore.move toSlot fromSlot d1 in
  fst r = inr true /\
  fst (BookmarkStore.list_ (snd r)) = inr l /\
  fst (BookmarkStore.list_ (snd (BookmarkStore.move fromSlot fromSlot d))) = inr l.
Proof.
  intros Hl Hw Hf Ht d1 r. subst r d1.
  set (f := Z.to_nat (fromSlot - 1)). set (t := Z.to_nat (toSlot - 1)).
  destruct (lookup_lt_is_Some_2 l f) as [b Hb]; [lia |].
  assert (Htl : (t < length l)%nat) by lia.
  assert (Hfl : (f < length l)%nat) by lia.
  rewrite (move_run d l fromSlot toSlot b) by assumption.
  rewrite (move_run d l fromSlot fromSlot b) by assumption.
  cbn [snd]. fold f t.
  rewrite (move_run _ (moved l f t b) toSlot fromSlot b);
    try reflexivity; try (rewrite moved_length by assumption; assumption);
    [| by apply moved_lookup].
  cbn [fst snd]. fold f t. rewrite list_saved. cbn [fst].
  rewrite moved_inverse by assumption.
  repeat split.
  unfold moved. rewrite take_delete_same, drop_delete_same by lia.
  by rewrite take_drop_middle.
Qed.

Lemma move_back_restores_witness :
  let d1 := snd (BookmarkStore.move 1 3 Sample.threeDisk) in
  let r := BookmarkStore.move 3 1 d1 in
  fst r = inr true /\
  fst (BookmarkStore.list_ (snd r)) = inr [Sample.first; Sample.second; Sample.third] /\
  fst (BookmarkStore.list_ (snd (BookmarkStore.move 1 1 Sample.threeDisk)))
  = inr [Sample.first; Sample.second; Sample.third].
Proof.
  apply (move_back_restores Sample.threeDisk
           [Sample.first; Sample.second; Sample.third] 1 3 eq_refl eq_refl);
    simpl; lia.
Defined.

(** ** The file *)

(** With no file, or with a file that is not valid JSON, the store is
    empty: [read] returns the empty envelope at the current version, the
    lookups return null, and the first [add] leaves a file with just the
    new bookmark, whatever the damaged file held. *)
Theorem missing_or_corrupt_file_is_empty (env : Env) (d : Disk) :
  file d = Missing \/ file d = Corrupt ->
  BookmarkStore.read d
    = (inr {| version := CURRENT_SCHEMA_VERSION; items := [] |}, d) /\
  (forall k, BookmarkStore.getBySlot k d = (inr None, d)) /\
  (forall i, BookmarkStore.get i d = (inr None, d)) /\
  (forall lbl, BookmarkStore.getByLabel lbl d = (inr None, d)) /\
  (writable d = true ->
   forall lbl k tg fb c,
     BookmarkStore.add env lbl k tg fb c d
     = (inr (BookmarkStore.mint env lbl k tg fb c),
        saved [BookmarkStore.mint env lbl k tg fb c])).
Proof.
  intros Hfile.
  assert (Hl : fst (BookmarkStore.list_ d) = inr []).
  { unfold BookmarkStore.list_, bind, ret, BookmarkStore.read.
    by destruct Hfile as [-> | ->]. }
  repeat apply conj.
  - by apply list_read_current.
  - intros k. rewrite (getBySlot_run d []) by assumption.
    destruct (decide _) as [Hk | _]; [simpl in Hk; lia | reflexivity].
  - intros i. by rewrite (get_run d []).
  - intros lbl. by rewrite (getByLabel_run d []).
  - intros Hw lbl k tg fb c. by rewrite (add_run env d []).
Qed.

Lemma missing_or_corrupt_file_is_empty_witness :
  BookmarkStore.add Sample.env "fresh" KWindow (mkTarget (Some "$1") (Some "@1") None)
    Sample.noFallback None {| file := Corrupt; writable := true |}
  = (inr (BookmarkStore.mint Sample.env "fresh" KWindow
            (mkTarget (Some "$1") (Some "@1") None) Sample.noFallback None),
     saved [BookmarkStore.mint Sample.env "fresh" KWindow
              (mkTarget (Some "$1") (Some "@1") None) Sample.noFallback None]).
Proof.
  destruct (missing_or_corrupt_file_is_empty Sample.env
              {| file := Corrupt; writable := true |}) as (_ & _ & _ & _ & H).
  - by right.
  - by apply H.
Defined.





(** A file that cannot be read fails every method of the store with the
    same error, and no method writes over it. *)
Theorem unreadable_file_fails (env : Env) (d : Disk) :
  file d = Unreadable ->
  BookmarkStore.read d = (inl PersistenceFailure, d) /\
  BookmarkStore.list_ d = (inl PersistenceFailure, d) /\
  (forall i, BookmarkStore.get i d = (inl PersistenceFailure, d)) /\
  (forall lbl, BookmarkStore.getByLabel lbl d = (inl PersistenceFailure, d)) /\
  (forall k, BookmarkStore.getBySlot k d = (inl PersistenceFailure, d)) /\
  (forall lbl k tg fb c,
     BookmarkStore.add env lbl k tg fb c d = (inl PersistenceFailure, d)) /\
  (forall i, BookmarkStore.remove i d = (inl PersistenceFailure, d)) /\
  (forall k, BookmarkStore.removeBySlot k d = (inl PersistenceFailure, d)) /\
  (forall i newLabel, BookmarkStore.rename i newLabel d = (inl PersistenceFailure, d)) /\
  (forall slot lbl k tg fb c,
     BookmarkStore.replace env slot lbl k tg fb c d = (inl PersistenceFailure, d)) /\
  (forall i, BookmarkStore.touch env i d = (inl PersistenceFailure, d)) /\
  (forall f t, BookmarkStore.move f t d = (inl PersistenceFailure, d)).
Proof.
  intros Hfile.
  assert (Hread : BookmarkStore.read d = (inl PersistenceFailure, d))
    by (unfold BookmarkStore.read; by rewrite Hfile).
  repeat apply conj; intros;
    unfold BookmarkStore.list_, BookmarkStore.get, BookmarkStore.getByLabel,
      BookmarkStore.getBySlot, BookmarkStore.add, BookmarkStore.remove,
      BookmarkStore.removeBySlot, BookmarkStore.rename, BookmarkStore.replace,
      BookmarkStore.touch, BookmarkStore.move, bind;
    by rewrite Hread.
Qed.

Lemma unreadable_file_fails_witness :
  BookmarkStore.getBySlot 1 {| file := Unreadable; writable := true |}
  = (inl PersistenceFailure, {| file := Unreadable; writable := true |}).
Proof.
  destruct (unreadable_file_fails Sample.env {| file := Unreadable; writable := true |}
              eq_refl) as (_ & _ & _ & _ & H & _).
  apply H.
Defined.

(** A file at another schema version keeps its version through reads and
    no-op calls; the first method that writes, rewrites it at the current
    schema version with the items it had, changed as the method says. *)
Theorem first_write_sets_current_version (env : Env) (d : Disk)
  (content : BookmarksFile) :
  file d = Json content -> writable d = true ->
  file (snd (BookmarkStore.list_ d)) = Json content /\
  (forall k, file (snd (BookmarkStore.getBySlot k d)) = Json content) /\
  (forall k, ~ (1 <= k <= Z.of_nat (length (items content))) ->
     file (snd (BookmarkStore.removeBySlot k d)) = Json content) /\
  (forall lbl k tg fb c,
     file (snd (BookmarkStore.add env lbl k tg fb c d))
     = Json {| version := CURRENT_SCHEMA_VERSION;
               items := items content ++ [BookmarkStore.mint env lbl k tg fb c] |}) /\
  (forall k, 1 <= k <= Z.of_nat (length (items content)) ->
     file (snd (BookmarkStore.removeBySlot k d))
     = Json {| version := CURRENT_SCHEMA_VERSION;
               items := delete (Z.to_nat (k - 1)) (items content) |}).
Proof.
  intros Hfile Hw.
  assert (Hl : fst (BookmarkStore.list_ d) = inr (items content)).
  { unfold BookmarkStore.list_, bind, ret, BookmarkStore.read. rewrite Hfile.
    cbn [fst]. by rewrite migrate_items. }
  repeat apply conj.
  - unfold BookmarkStore.list_. apply list_read_current in Hl. by run_store Hl.
  - intros k. by rewrite (getBySlot_run d (items content)).
  - intros k Hk. by rewrite (removeBySlot_out d (items content)).
  - intros lbl k tg fb c. by rewrite (add_run env d (items content)).
  - intros k Hk. by rewrite (removeBySlot_run d (items content)).
Qed.

Lemma first_write_sets_current_version_witness :
  file (snd (BookmarkStore.removeBySlot 1 Sample.futureDisk))
  = Json {| version := 1; items := [Sample.second] |}.
Proof.
  destruct (first_write_sets_current_version Sample.env Sample.futureDisk
              {| version := 2; items := [Sample.first; Sample.second] |}
              eq_refl eq_refl) as (_ & _ & _ & _ & H).
  apply (H 1). simpl. lia.
Defined.

(** * Further properties of the resolver *)

Section FindSound.

Context {A : Type} (P : A -> Prop) `{!forall x, Decision (P x)}.

Lemma find_Some (l : list A) (x : A) :
  find P l = Some x <->
  exists i, l !! i = Some x /\ P x /\ forall j y, l !! j = Some y -> (j < i)%nat -> ~ P y.
Proof.
  unfold find. split.
  - destruct (list_find P l) as [[i y] |] eqn:Hfind; [| discriminate].
    intros [= <-]. exists i. by apply list_find_Some in Hfind.
  - intros (i & Hi). apply (list_find_Some P l i x) in Hi. by rewrite Hi.
Qed.

Lemma find_None (l : list A) :
  find P l = None <-> forall j y, l !! j = Some y -> ~ P y.
Proof.
  unfold find. split.
  - destruct (list_find P l) as [[i y] |] eqn:Hfind; [discriminate |].
    intros _ j y Hj. apply list_find_None in Hfind.
    rewrite Forall_forall in Hfind. apply Hfind. by eapply list_elem_of_lookup_2.
  - intros Hnone.
    assert (Hfind : list_find P l = None).
    { apply list_find_None, Forall_forall. intros x Hx.
      apply list_elem_of_lookup_1 in Hx as [j Hj]. by apply (Hnone j x). }
    by rewrite Hfind.
Qed.

Lemma find_holds (l : list A) (x : A) : find P l = Some x -> P x.
Proof. intros (i & _ & HP & _)%find_Some. exact HP. Qed.

Lemma find_lookup (l : list A) (x : A) : find P l = Some x -> exists i, l !! i = Some x.
Proof. intros (i & Hi & _)%find_Some. by exists i. Qed.

(** [find] on a longer array returns what it returned on the prefix. *)
Lemma find_app_l (l k : list A) (x : A) : find P l = Some x -> find P (l ++ k) = Some x.
Proof.
  unfold find.
  destruct (list_find P l) as [[i y] |] eqn:Hfind; [| discriminate].
  intros [= <-]. by rewrite (list_find_app_l _ l k i y).
Qed.

End FindSound.

(** A stable-ID result names a live entity that carries the bookmark's id
    of its own kind, and takes the ids of the parents from that live entity,
    not from the bookmark; it has exactly the ids of the bookmark's
    kind. *)
Theorem tryResolveById_names_live_entity (b : Bookmark) (st : TmuxState)
  (t : TmuxTarget) :
  tryResolveById b st = Some t ->
  match kind b with
  | KSession =>
      exists j s, sessions st !! j = Some s /\
        sessionId (target b) = Some (TmuxSession.sessionId s) /\
        t = mkTarget (Some (TmuxSession.sessionId s)) None None
  | KWindow =>
      exists j w, windows st !! j = Some w /\
        windowId (target b) = Some (TmuxWindow.windowId w) /\
        t = mkTarget (Some (TmuxWindow.sessionId w)) (Some (TmuxWindow.windowId w)) None
  | KPane =>
      exists j p, panes st !! j = Some p /\
        paneId (target b) = Some (TmuxPane.paneId p) /\
        t = mkTarget (Some (TmuxPane.sessionId p)) (Some (TmuxPane.windowId p))
              (Some (TmuxPane.paneId p))
  end.
Proof.
  unfold tryResolveById.
  destruct (kind b).
  - destruct (truthy (sessionId (target b))) as [sid |] eqn:Hid; [| discriminate].
    apply truthy_Some in Hid as [Hid _].
    destruct (TmuxAdapter.findSessionById st sid) as [s |] eqn:Hs; [| discriminate].
    intros [= <-]. unfold TmuxAdapter.findSessionById in Hs.
    pose proof (find_holds _ _ _ Hs) as Heq. simpl in Heq.
    apply find_lookup in Hs as [j Hj]. exists j, s.
    repeat split; [assumption | congruence].
  - destruct (truthy (windowId (target b))) as [wid |] eqn:Hid; [| discriminate].
    apply truthy_Some in Hid as [Hid _].
    destruct (TmuxAdapter.findWindowById st wid) as [w |] eqn:Hw; [| discriminate].
    intros [= <-]. unfold TmuxAdapter.findWindowById in Hw.
    pose proof (find_holds _ _ _ Hw) as Heq. simpl in Heq.
    apply find_lookup in Hw as [j Hj]. exists j, w.
    repeat split; [assumption | congruence].
  - destruct (truthy (paneId (target b))) as [pid |] eqn:Hid; [| discriminate].
    apply truthy_Some in Hid as [Hid _].
    destruct (TmuxAdapter.findPaneById st pid) as [p |] eqn:Hp; [| discriminate].
    intros [= <-]. unfold TmuxAdapter.findPaneById in Hp.
    pose proof (find_holds _ _ _ Hp) as Heq. simpl in Heq.
    apply find_lookup in Hp as [j Hj]. exists j, p.
    repeat split; [assumption | congruence].
Qed.

(** A window bookmark made in session [$1] whose window [@4] now lives in
    session [$7]: the result carries [$7]. *)
Lemma tryResolveById_names_live_entity_witness :
  exists j w, windows Sample.workState !! j = Some w /\
    Some "@4" = Some (TmuxWindow.windowId w) /\
    mkTarget (Some "$7") (Some "@4") None
    = mkTarget (Some (TmuxWindow.sessionId w)) (Some (TmuxWindow.windowId w)) None.
Proof.
  apply (tryResolveById_names_live_entity
           (Sample.bookmark "b-6" "api" KWindow (mkTarget (Some "$1") (Some "@4") None)
              Sample.noFallback None)
           Sample.workState (mkTarget (Some "$7") (Some "@4") None)).
  reflexivity.
Defined.

(** The stable id is authoritative: when a live entity carries the
    bookmark's non-empty id of its kind, the bookmark resolves with method
    ["id"], whatever its fallback names, its recorded directory and the
    other ids of its target are. *)
Theorem live_id_resolves_by_id (b : Bookmark) (st : TmuxState) :
  (forall j s, kind b = KSession -> sessions st !! j = Some s ->
     TmuxSession.sessionId s <> "" ->
     sessionId (target b) = Some (TmuxSession.sessionId s) ->
     exists t, resolveBookmark b st = Resolved MId t /\
               sessionId t = sessionId (target b)) /\
  (forall j w, kind b = KWindow -> windows st !! j = Some w ->
     TmuxWindow.windowId w <> "" ->
     windowId (target b) = Some (TmuxWindow.windowId w) ->
     exists t, resolveBookmark b st = Resolved MId t /\
               windowId t = windowId (target b)) /\
  (forall j p, kind b = KPane -> panes st !! j = Some p ->
     TmuxPane.paneId p <> "" ->
     paneId (target b) = Some (TmuxPane.paneId p) ->
     exists t, resolveBookmark b st = Resolved MId t /\
               paneId t = paneId (target b)).
Proof.
  repeat apply conj.
  - intros j s Hk Hj Hne Hid.
    destruct (TmuxAdapter.findSessionById st (TmuxSession.sessionId s)) as [s' |] eqn:Hs.
    2: { unfold TmuxAdapter.findSessionById in Hs.
         by destruct (proj1 (find_None _ _) Hs j s Hj). }
    exists (mkTarget (Some (TmuxSession.sessionId s')) None None).
    pose proof (find_holds _ _ _ Hs) as Heq. simpl in Heq.
    unfold resolveBookmark, tryResolveById.
    rewrite Hk, Hid, truthy_set, Hs by assumption.
    split; [reflexivity | simpl; congruence].
  - intros j w Hk Hj Hne Hid.
    destruct (TmuxAdapter.findWindowById st (TmuxWindow.windowId w)) as [w' |] eqn:Hw.
    2: { unfold TmuxAdapter.findWindowById in Hw.
         by destruct (proj1 (find_None _ _) Hw j w Hj). }
    exists (mkTarget (Some (TmuxWindow.sessionId w')) (Some (TmuxWindow.windowId w')) None).
    pose proof (find_holds _ _ _ Hw) as Heq. simpl in Heq.
    unfold resolveBookmark, tryResolveById.
    rewrite Hk, Hid, truthy_set, Hw by assumption.
    split; [reflexivity | simpl; congruence].
  - intros j p Hk Hj Hne Hid.
    destruct (TmuxAdapter.findPaneById st (TmuxPane.paneId p)) as [p' |] eqn:Hp.
    2: { unfold TmuxAdapter.findPaneById in Hp.
         by destruct (proj1 (find_None _ _) Hp j p Hj). }
    exists (mkTarget (Some (TmuxPane.sessionId p')) (Some (TmuxPane.windowId p'))
              (Some (TmuxPane.paneId p'))).
    pose proof (find_holds _ _ _ Hp) as Heq. simpl in Heq.
    unfold resolveBookmark, tryResolveById.
    rewrite Hk, Hid, truthy_set, Hp by assumption.
    split; [reflexivity | simpl; congruence].
Qed.

(** The window [@4] is live; the bookmark's names and directory are
    stale. *)
Lemma live_id_resolves_by_id_witness :
  exists t,
    resolveBookmark
      (Sample.bookmark "b-7" "api" KWindow (mkTarget (Some "$1") (Some "@4") None)
         {| sessionName := Some "gone"; windowIndex := Some 9;
            windowName := Some "old"; paneIndex := None |}
         (Some "/nowhere"))
      Sample.workState
    = Resolved MId t /\
    windowId t = Some "@4".
Proof.
  destruct (live_id_resolves_by_id
              (Sample.bookmark "b-7" "api" KWindow (mkTarget (Some "$1") (Some "@4") None)
                 {| sessionName := Some "gone"; windowIndex := Some 9;
                    windowName := Some "old"; paneIndex := None |}
                 (Some "/nowhere"))
              Sample.workState) as (_ & H & _).
  apply (H 0%nat (Sample.window "@4" 0 "api" "$7" "work")); try reflexivity.
  discriminate.
Defined.

(** The working-directory tier returns the first live pane, in the order
    of the snapshot, whose directory is exactly the recorded one, as a full
    session/window/pane target; it fails exactly when no live pane is in
    that directory. *)
Theorem tryResolveByCwd_first_pane (c : string) (st : TmuxState) :
  (forall t,
     tryResolveByCwd c st = Some t <->
     exists i p,
       panes st !! i = Some p /\ TmuxPane.cwd p = c /\
       (forall j q, panes st !! j = Some q -> (j < i)%nat -> TmuxPane.cwd q <> c) /\
       t = mkTarget (Some (TmuxPane.sessionId p)) (Some (TmuxPane.windowId p))
             (Some (TmuxPane.paneId p))) /\
  (tryResolveByCwd c st = None <->
   forall j q, panes st !! j = Some q -> TmuxPane.cwd q <> c).
Proof.
  unfold tryResolveByCwd, TmuxAdapter.listPanes. split.
  - intros t. split.
    + destruct (find _ (panes st)) as [p |] eqn:Hfind; [| discriminate].
      intros [= <-]. apply find_Some in Hfind as (i & Hi & Hc & Hfirst).
      exists i, p. repeat split; assumption.
    + intros (i & p & Hi & Hc & Hfirst & ->).
      assert (Hfind : find (fun p => TmuxPane.cwd p = c) (panes st) = Some p)
        by (apply find_Some; exists i; repeat split; assumption).
      by rewrite Hfind.
  - split.
    + destruct (find _ (panes st)) as [p |] eqn:Hfind; [discriminate |].
      intros _. exact (proj1 (find_None _ _) Hfind).
    + intros Hnone. by rewrite (proj2 (find_None (fun p => TmuxPane.cwd p = c) _) Hnone).
Qed.

Lemma tryResolveByCwd_first_pane_witness :
  tryResolveByCwd "/home/user/project" Sample.blankState
  = Some (mkTarget (Some "$1") (Some "@2") (Some "%2")).
Proof.
  destruct (tryResolveByCwd_first_pane "/home/user/project" Sample.blankState)
    as [H _].
  apply H.
  exists 1%nat, (Sample.pane "%2" "@2" 1 "logs" "$1" "work" "/home/user/project").
  repeat split.
  intros j q Hj Hlt. assert (j = 0%nat) as -> by lia.
  injection Hj as <-. discriminate.
Defined.

(** A fallback result is made of live entities that belong together: the
    session carries the recorded session name and, for a window or pane
    bookmark, the window is a window of that very session and carries the
    recorded window name or the recorded window index. *)
Theorem tryResolveByFallback_consistent (b : Bookmark) (st : TmuxState)
  (t : TmuxTarget) :
  tryResolveByFallback b st = Some t ->
  exists i s,
    sessions st !! i = Some s /\
    sessionName (fallback b) = Some (TmuxSession.sessionName s) /\
    sessionId t = Some (TmuxSession.sessionId s) /\
    paneId t = None /\
    match kind b with
    | KSession => windowId t = None
    | KWindow | KPane =>
        exists j w,
          windows st !! j = Some w /\
          TmuxWindow.sessionId w = TmuxSession.sessionId s /\
          windowId t = Some (TmuxWindow.windowId w) /\
          (windowName (fallback b) = Some (TmuxWindow.windowName w) \/
           windowIndex (fallback b) = Some (TmuxWindow.windowIndex w))
    end.
Proof.
  unfold tryResolveByFallback.
  destruct (fallbackSession (fallback b) st) as [s |] eqn:Hs; [| discriminate].
  unfold fallbackSession in Hs.
  destruct (truthy (sessionName (fallback b))) as [n |] eqn:Hn; [| discriminate].
  apply truthy_Some in Hn as [Hn _].
  unfold TmuxAdapter.findSessionByName in Hs.
  pose proof (find_holds _ _ _ Hs) as Hname. simpl in Hname.
  apply find_lookup in Hs as [i Hi].
  assert (Hwin : forall w,
            match windowByName (fallback b) st s with
            | Some w => Some w
            | None => windowByIndex (fallback b) st s
            end = Some w ->
            exists j, windows st !! j = Some w /\
              TmuxWindow.sessionId w = TmuxSession.sessionId s /\
              (windowName (fallback b) = Some (TmuxWindow.windowName w) \/
               windowIndex (fallback b) = Some (TmuxWindow.windowIndex w))).
  { intros w. unfold windowByName, windowByIndex.
    destruct (truthy (windowName (fallback b))) as [wn |] eqn:Hwn.
    - apply truthy_Some in Hwn as [Hwn _].
      destruct (TmuxAdapter.findWindowByName st _ wn) as [w' |] eqn:Hf.
      + intros [= ->]. unfold TmuxAdapter.findWindowByName in Hf.
        pose proof (find_holds _ _ _ Hf) as [H1 H2].
        apply find_lookup in Hf as [j Hj]. exists j.
        repeat split; [assumption.. |]. left. congruence.
      + destruct (windowIndex (fallback b)) as [wi |] eqn:Hwi; [| discriminate].
        intros Hf'. unfold TmuxAdapter.findWindowByIndex in Hf'.
        pose proof (find_holds _ _ _ Hf') as [H1 H2].
        apply find_lookup in Hf' as [j Hj]. exists j.
        repeat split; [assumption.. |]. right. congruence.
    - destruct (windowIndex (fallback b)) as [wi |] eqn:Hwi; [| discriminate].
      intros Hf'. unfold TmuxAdapter.findWindowByIndex in Hf'.
      pose proof (find_holds _ _ _ Hf') as [H1 H2].
      apply find_lookup in Hf' as [j Hj]. exists j.
      repeat split; [assumption.. |]. right. congruence. }
  destruct (decide (kind b = KSession)) as [Hk | Hk].
  - intros [= <-]. exists i, s. rewrite Hk. repeat split; [assumption | congruence].
  - destruct (match windowByName (fallback b) st s with
              | Some w => Some w
              | None => windowByIndex (fallback b) st s
              end) as [w |] eqn:Hw; [| discriminate].
    destruct (Hwin w eq_refl) as (j & Hj & Hsess & Hmatch).
    destruct (kind b); [contradiction | |];
      intros [= <-]; exists i, s;
      (repeat split; [assumption | congruence |]);
      exists j, w; repeat split; assumption.
Qed.

Lemma tryResolveByFallback_consistent_witness :
  exists i s,
    sessions Sample.workState !! i = Some s /\
    sessionName (fallback Sample.apiPaneBookmark) = Some (TmuxSession.sessionName s) /\
    sessionId (mkTarget (Some "$7") (Some "@4") None) = Some (TmuxSession.sessionId s) /\
    paneId (mkTarget (Some "$7") (Some "@4") None) = None /\
    match kind Sample.apiPaneBookmark with
    | KSession => windowId (mkTarget (Some "$7") (Some "@4") None) = None
    | KWindow | KPane =>
        exists j w,
          windows Sample.workState !! j = Some w /\
          TmuxWindow.sessionId w = TmuxSession.sessionId s /\
          windowId (mkTarget (Some "$7") (Some "@4") None)
            = Some (TmuxWindow.windowId w) /\
          (windowName (fallback Sample.apiPaneBookmark)
             = Some (TmuxWindow.windowName w) \/
           windowIndex (fallback Sample.apiPaneBookmark)
             = Some (TmuxWindow.windowIndex w))
    end.
Proof.
  apply (tryResolveByFallback_consistent Sample.apiPaneBookmark Sample.workState
           (mkTarget (Some "$7") (Some "@4") None)).
  reflexivity.
Defined.

(** What a resolved target contains depends on the tier, not only on the
    kind: every resolved target has a session id; a ["cwd"] result always
    has a window and a pane id, also for a session or window bookmark; a
    ["fallback"] result never has a pane id, also for a pane bookmark; an
    ["id"] result has exactly the ids of the bookmark's kind. *)
Theorem resolved_target_granularity (b : Bookmark) (st : TmuxState)
  (m : Method) (t : TmuxTarget) :
  resolveBookmark b st = Resolved m t ->
  is_Some (sessionId t) /\
  match m with
  | MId =>
      match kind b with
      | KSession => windowId t = None /\ paneId t = None
      | KWindow => is_Some (windowId t) /\ paneId t = None
      | KPane => is_Some (windowId t) /\ is_Some (paneId t)
      end
  | MFallback =>
      paneId t = None /\
      match kind b with
      | KSession => windowId t = None
      | KWindow | KPane => is_Some (windowId t)
      end
  | MCwd => is_Some (windowId t) /\ is_Some (paneId t)
  end.
Proof.
  intros Hr. apply resolveBookmark_method in Hr. destruct m.
  - revert Hr. unfold tryResolveById.
    destruct (kind b).
    + destruct (truthy _); [| discriminate].
      destruct (TmuxAdapter.findSessionById _ _); [| discriminate].
      intros [= <-]. simpl. by repeat split.
    + destruct (truthy _); [| discriminate].
      destruct (TmuxAdapter.findWindowById _ _); [| discriminate].
      intros [= <-]. simpl. by repeat split.
    + destruct (truthy _); [| discriminate].
      destruct (TmuxAdapter.findPaneById _ _); [| discriminate].
      intros [= <-]. simpl. by repeat split.
  - destruct Hr as [_ Hr]. revert Hr. unfold tryResolveByFallback.
    destruct (fallbackSession _ _) as [s |]; [| discriminate].
    destruct (decide (kind b = KSession)) as [Hk | Hk].
    + intros [= <-]. rewrite Hk. simpl. by repeat split.
    + destruct (match windowByName (fallback b) st s with
                | Some w => Some w
                | None => windowByIndex (fallback b) st s
                end) as [w |]; [| discriminate].
      destruct (kind b); [contradiction | |]; intros [= <-]; simpl; by repeat split.
  - destruct Hr as (_ & _ & c & _ & _ & Hr). revert Hr. unfold tryResolveByCwd.
    destruct (find _ _); [| discriminate].
    intros [= <-]. simpl. by repeat split.
Qed.

(** A session bookmark that only its directory can locate resolves to a
    pane. *)
Lemma resolved_target_granularity_witness :
  is_Some (sessionId (mkTarget (Some "$7") (Some "@4") (Some "%9"))) /\
  is_Some (windowId (mkTarget (Some "$7") (Some "@4") (Some "%9"))) /\
  is_Some (paneId (mkTarget (Some "$7") (Some "@4") (Some "%9"))).
Proof.
  apply (resolved_target_granularity
           (Sample.bookmark "b-8" "old" KSession (mkTarget (Some "$1") None None)
              Sample.noFallback (Some "/srv/api"))
           Sample.workState MCwd (mkTarget (Some "$7") (Some "@4") (Some "%9"))).
  reflexivity.
Defined.

(** Resolution reads the kind, the target, the three fallback fields and
    the recorded directory, and nothing else: bookmarks that agree on these
    resolve alike, so renaming or touching a bookmark, or a different
    [fallback.paneIndex], never changes where it leads. *)
Theorem resolveBookmark_reads_only (b b' : Bookmark) (st : TmuxState) :
  kind b = kind b' -> target b = target b' ->
  sessionName (fallback b) = sessionName (fallback b') ->
  windowName (fallback b) = windowName (fallback b') ->
  windowIndex (fallback b) = windowIndex (fallback b') ->
  cwd (meta b) = cwd (meta b') ->
  resolveBookmark b st = resolveBookmark b' st /\
  (forall l, resolveBookmark (setLabel b l) st = resolveBookmark b st) /\
  (forall u, resolveBookmark (setLastUsed b u) st = resolveBookmark b st).
Proof.
  intros Hk Ht Hs Hwn Hwi Hc. split; [| split; reflexivity].
  unfold resolveBookmark, tryResolveById, tryResolveByFallback,
    fallbackSession, windowByName, windowByIndex.
  by rewrite Hk, Ht, Hs, Hwn, Hwi, Hc.
Qed.

Lemma resolveBookmark_reads_only_witness :
  resolveBookmark Sample.apiPaneBookmark Sample.workState
  = resolveBookmark
      (Sample.bookmark "other" "renamed" KPane
         (mkTarget (Some "$1") (Some "@3") (Some "%5"))
         {| sessionName := Some "work"; windowIndex := Some 5;
            windowName := Some "api"; paneIndex := Some 7 |}
         None)
      Sample.workState.
Proof.
  apply (resolveBookmark_reads_only Sample.apiPaneBookmark
           (Sample.bookmark "other" "renamed" KPane
              (mkTarget (Some "$1") (Some "@3") (Some "%5"))
              {| sessionName := Some "work"; windowIndex := Some 5;
                 windowName := Some "api"; paneIndex := Some 7 |}
              None)
           Sample.workState); reflexivity.
Defined.

(** * Properties of the adapter's context and of switching *)

Section Switching.

Variable st : TmuxState.
Hypothesis Hids : idsNonEmpty st.

(** In a snapshot whose ids are not empty, the ids of a resolved target
    are not empty. *)
Lemma resolved_ids_set b m t :
  resolveBookmark b st = Resolved m t ->
  (exists s, sessionId t = Some s /\ s <> "") /\
  (forall w, windowId t = Some w -> w <> "") /\
  (forall p, paneId t = Some p -> p <> "").
Proof.
  destruct Hids as (Hs & Hw & Hp).
  intros Hr. apply resolveBookmark_method in Hr. destruct m.
  - revert Hr. unfold tryResolveById. destruct (kind b).
    + destruct (truthy _) as [sid |]; [| discriminate].
      destruct (TmuxAdapter.findSessionById st sid) as [s |] eqn:Hf; [| discriminate].
      apply find_lookup in Hf as [i Hi]. intros [= <-]. simpl.
      repeat split; [| discriminate..]. eexists. split; [reflexivity |]. by eapply Hs.
    + destruct (truthy _) as [wid |]; [| discriminate].
      destruct (TmuxAdapter.findWindowById st wid) as [w |] eqn:Hf; [| discriminate].
      apply find_lookup in Hf as [i Hi]. destruct (Hw i w Hi) as [H1 H2].
      intros [= <-]. simpl. repeat split; [| | discriminate].
      * by eexists.
      * by intros ? [= <-].
    + destruct (truthy _) as [pid |]; [| discriminate].
      destruct (TmuxAdapter.findPaneById st pid) as [p |] eqn:Hf; [| discriminate].
      apply find_lookup in Hf as [i Hi]. destruct (Hp i p Hi) as (H1 & H2 & H3).
      intros [= <-]. simpl. repeat split.
      * by eexists.
      * by intros ? [= <-].
      * by intros ? [= <-].
  - destruct Hr as [_ Hr]. revert Hr. unfold tryResolveByFallback.
    destruct (fallbackSession _ _) as [s |] eqn:Hfs; [| discriminate].
    assert (Hsne : TmuxSession.sessionId s <> "").
    { unfold fallbackSession in Hfs. destruct (truthy _); [| discriminate].
      apply find_lookup in Hfs as [i Hi]. by eapply Hs. }
    destruct (decide (kind b = KSession)) as [Hk | Hk].
    + intros [= <-]. simpl. repeat split; [by eexists | discriminate..].
    + destruct (match windowByName (fallback b) st s with
                | Some w => Some w
                | None => windowByIndex (fallback b) st s
                end) as [w |] eqn:Hwin; [| discriminate].
      assert (Hwne : TmuxWindow.windowId w <> "").
      { revert Hwin. unfold windowByName, windowByIndex.
        destruct (truthy (windowName _)) as [wn |].
        - destruct (TmuxAdapter.findWindowByName st _ wn) as [w' |] eqn:Hf.
          + intros [= ->]. apply find_lookup in Hf as [i Hi]. by destruct (Hw i w Hi).
          + destruct (windowIndex _); [| discriminate].
            intros Hf'. apply find_lookup in Hf' as [i Hi]. by destruct (Hw i w Hi).
        - destruct (windowIndex _); [| discriminate].
          intros Hf'. apply find_lookup in Hf' as [i Hi]. by destruct (Hw i w Hi). }
      destruct (kind b); [contradiction | |]; intros [= <-]; simpl;
        (repeat split; [by eexists | by intros ? [= <-] | discriminate]).
  - destruct Hr as (_ & _ & c & _ & _ & Hr). revert Hr. unfold tryResolveByCwd.
    destruct (find _ _) as [p |] eqn:Hf; [| discriminate].
    apply find_lookup in Hf as [i Hi]. destruct (Hp i p Hi) as (H1 & H2 & H3).
    intros [= <-]. simpl. repeat split.
    + by eexists.
    + by intros ? [= <-].
    + by intros ? [= <-].
Qed.

End Switching.

(** A resolved target can always be switched to: in a snapshot whose ids
    are not empty, [switchToOutsideTmux] never throws "No target specified"
    for it and attaches to its most specific id, and [switchToInsideTmux]
    starts with [switch-client] to its session, then selects the window and
    the pane it has, in that order. *)
Theorem resolved_target_switches (socket : option string) (b : Bookmark)
  (st : TmuxState) (m : Method) (t : TmuxTarget) :
  idsNonEmpty st ->
  resolveBookmark b st = Resolved m t ->
  exists s,
    sessionId t = Some s /\
    AdapterContext.switchToOutsideTmux socket t
    = inr (AdapterContext.socketArgs socket
           ++ ["attach-session"; "-t";
               default (default s (windowId t)) (paneId t)]) /\
    AdapterContext.switchToInsideTmux socket t
    = AdapterContext.run socket ["switch-client"; "-t"; s]
      :: (match windowId t with
          | Some w => [AdapterContext.run socket ["select-window"; "-t"; w]]
          | None => []
          end)
      ++ (match paneId t with
          | Some p => [AdapterContext.run socket ["select-pane"; "-t"; p]]
          | None => []
          end).
Proof.
  intros Hids Hr.
  destruct (resolved_ids_set st Hids b m t Hr) as ((s & Hs & Hsne) & Hw & Hp).
  exists s. split; [assumption |].
  unfold AdapterContext.switchToOutsideTmux, AdapterContext.switchToInsideTmux.
  rewrite Hs, (truthy_set s Hsne).
  destruct (windowId t) as [w |]; destruct (paneId t) as [p |];
    rewrite ?truthy_set by auto; simpl; rewrite <- ?app_assoc; by split.
Qed.

Lemma workState_ids : idsNonEmpty Sample.workState.
Proof.
  unfold idsNonEmpty. split; [| split]; intros [| i] x Hi; simpl in Hi;
    try discriminate; injection Hi as <-; repeat split; discriminate.
Qed.

Lemma resolved_target_switches_witness :
  exists s,
    sessionId (mkTarget (Some "$7") (Some "@4") None) = Some s /\
    AdapterContext.switchToOutsideTmux None (mkTarget (Some "$7") (Some "@4") None)
    = inr ([] ++ ["attach-session"; "-t"; "@4"]) /\
    AdapterContext.switchToInsideTmux None (mkTarget (Some "$7") (Some "@4") None)
    = [["switch-client"; "-t"; s]; ["select-window"; "-t"; "@4"]].
Proof.
  apply (resolved_target_switches None Sample.apiPaneBookmark Sample.workState
           MFallback (mkTarget (Some "$7") (Some "@4") None)).
  - exact workState_ids.
  - reflexivity.
Defined.

(** * Properties of the command layer *)

Section CmdAdd.

Import BookmarkStore.

Lemma add_result env lbl k tg fb c d bk d1 :
  add env lbl k tg fb c d = (inr bk, d1) -> bk = mint env lbl k tg fb c.
Proof.
  unfold add, bind, ret.
  destruct (read d) as [[e | data] d0]; [discriminate |].
  destruct (write _ d0) as [[e | []] d2]; [discriminate |].
  by intros [= <- _].
Qed.

(** What a completed [cmdAdd] added. *)
Lemma cmdAdd_completed env tenv st lbl k d b slot d' :
  Commands.cmdAdd env tenv st lbl k d = (inr (Completed (b, slot)), d') ->
  exists ti,
    Commands.currentTargetInfo tenv st k = Completed ti /\
    b = mint env lbl k
          (mkTarget (Some (TargetInfo.sessionId ti)) (TargetInfo.windowId ti)
             (TargetInfo.paneId ti))
          (Commands.currentFallback tenv st) (TargetInfo.cwd ti).
Proof.
  unfold Commands.cmdAdd.
  destruct (negb _); [discriminate |].
  destruct (Commands.currentTargetInfo tenv st k) as [code msg | ti]; [discriminate |].
  unfold bind at 1.
  destruct (add _ _ _ _ _ _ d) as [[e | bk] d1] eqn:Hadd; [discriminate |].
  apply add_result in Hadd. unfold bind, ret.
  destruct (list_ d1) as [[e | l] d2]; [discriminate |].
  intros [= <- _ _]. by exists ti.
Qed.

End CmdAdd.

(** Round trip through the command layer: a bookmark that [cmdAdd] has
    just added resolves, against the snapshot it was taken from, with method
    ["id"]; a session or window bookmark resolves to exactly its recorded
    target, a pane bookmark to a pane with its recorded pane id. *)
Theorem cmdAdd_then_resolve (env : Env) (tenv : TmuxEnv) (st : TmuxState)
  (lbl : string) (k : BookmarkKind) (d d' : Disk) (b : Bookmark) (slot : Z) :
  idsNonEmpty st ->
  Commands.cmdAdd env tenv st lbl k d = (inr (Completed (b, slot)), d') ->
  label b = lbl /\ kind b = k /\
  exists t,
    resolveBookmark b st = Resolved MId t /\
    match k with
    | KSession | KWindow => t = target b
    | KPane => paneId t = paneId (target b)
    end.
Proof.
  intros (Hs & Hw & Hp) Hcmd.
  apply cmdAdd_completed in Hcmd as (ti & Hti & ->).
  split; [reflexivity |]. split; [reflexivity |].
  unfold resolveBookmark, tryResolveById. cbn [kind target BookmarkStore.mint].
  revert Hti. unfold Commands.currentTargetInfo. destruct k.
  - destruct (AdapterContext.getCurrentSession tenv st) as [s |] eqn:Hcur;
      [| discriminate].
    intros [= <-]. cbn [sessionId mkTarget TargetInfo.sessionId].
    unfold AdapterContext.getCurrentSession in Hcur.
    destruct (AdapterContext.getCurrentPane tenv st) as [pane |]; [| discriminate].
    pose proof (find_holds _ _ _ Hcur) as Heq. simpl in Heq.
    pose proof (find_lookup _ _ _ Hcur) as [i Hi].
    rewrite truthy_set by (by eapply Hs).
    unfold TmuxAdapter.findSessionById. rewrite Heq, Hcur.
    eexists. split; [reflexivity |]. simpl. by rewrite Heq.
  - destruct (AdapterContext.getCurrentWindow tenv st) as [w |] eqn:Hcur;
      [| discriminate].
    intros [= <-]. cbn [windowId mkTarget TargetInfo.windowId TargetInfo.sessionId].
    unfold AdapterContext.getCurrentWindow in Hcur.
    destruct (AdapterContext.getCurrentPane tenv st) as [pane |]; [| discriminate].
    pose proof (find_holds _ _ _ Hcur) as Heq. simpl in Heq.
    pose proof (find_lookup _ _ _ Hcur) as [i Hi].
    rewrite truthy_set by (by destruct (Hw i w Hi)).
    unfold TmuxAdapter.findWindowById. rewrite Heq, Hcur.
    eexists. split; [reflexivity |]. simpl. by rewrite Heq.
  - destruct (AdapterContext.getCurrentPane tenv st) as [p |] eqn:Hcur;
      [| discriminate].
    intros [= <-]. cbn [paneId mkTarget TargetInfo.paneId].
    assert (Hlive : exists i, panes st !! i = Some p).
    { revert Hcur. unfold AdapterContext.getCurrentPane.
      destruct (negb _); [discriminate |].
      destruct (truthy _); apply find_lookup. }
    destruct Hlive as [i Hi].
    rewrite truthy_set by (by destruct (Hp i p Hi) as (? & _)).
    destruct (TmuxAdapter.findPaneById st (TmuxPane.paneId p)) as [p' |] eqn:Hfind.
    2: { unfold TmuxAdapter.findPaneById in Hfind.
         by destruct (proj1 (find_None _ _) Hfind i p Hi). }
    pose proof (find_holds _ _ _ Hfind) as Heq. simpl in Heq.
    eexists. split; [reflexivity |]. simpl. by rewrite Heq.
Qed.

(** [cmdAdd] writes only when it completes: on success the stored sequence
    has grown by the bookmark it reports and, the generated id being new to
    the store, the slot it prints is the last one and holds that bookmark;
    when it exits with an error message the file is as it was. *)
Theorem cmdAdd_store_effect (env : Env) (tenv : TmuxEnv) (st : TmuxState)
  (lbl : string) (k : BookmarkKind) (d d' : Disk) (l : list Bookmark) :
  fst (BookmarkStore.list_ d) = inr l ->
  (forall b slot,
     Commands.cmdAdd env tenv st lbl k d = (inr (Completed (b, slot)), d') ->
     (forall j b', l !! j = Some b' -> id b' <> randomUUID env) ->
     fst (BookmarkStore.list_ d') = inr (l ++ [b]) /\
     slot = Z.of_nat (length l) + 1 /\
     fst (BookmarkStore.getBySlot slot d') = inr (Some b)) /\
  (forall code message,
     Commands.cmdAdd env tenv st lbl k d = (inr (Exit code message), d') ->
     d' = d /\ code = 1).
Proof.
  intros Hl. split.
  - intros b slot Hcmd Hfresh.
    pose proof Hcmd as Hdone. apply cmdAdd_completed in Hdone as (ti & Hti & Hb).
    revert Hcmd. unfold Commands.cmdAdd.
    destruct (negb _); [discriminate |]. rewrite Hti.
    destruct (writable d) eqn:Hw.
    2: { unfold bind at 1, BookmarkStore.add, bind, ret.
         rewrite (list_read_current d l Hl).
         rewrite write_fails by assumption. discriminate. }
    unfold bind at 1. rewrite (add_run env d l) by assumption.
    rewrite <- Hb. unfold bind, ret. rewrite list_saved.
    assert (Hfind : list_find (fun b0 => id b0 = id b) (l ++ [b])
                    = Some (length l, b)).
    { apply list_find_Some. repeat split.
      - by apply list_lookup_middle.
      - intros j y Hj Hlt. rewrite lookup_app_l in Hj by assumption.
        rewrite Hb. by apply (Hfresh j y). }
    unfold findIndex. rewrite Hfind. cbn [fmap option_fmap option_map fst].
    intros [= <- <-]. repeat split.
    rewrite (getBySlot_run _ (l ++ [b])) by reflexivity. cbn [fst].
    destruct (decide _) as [_ | Hout];
      [| rewrite length_app in Hout; simpl in Hout; lia].
    replace (Z.to_nat (Z.of_nat (length l) + 1 - 1)) with (length l) by lia.
    by rewrite list_lookup_middle.
  - intros code message. unfold Commands.cmdAdd.
    destruct (negb _); [by intros [= <- _ <-] |].
    destruct (Commands.currentTargetInfo tenv st k) as [c0 m0 | ti] eqn:Hti.
    + intros [= <- _ <-]. split; [reflexivity |].
      revert Hti. unfold Commands.currentTargetInfo.
      destruct k;
        [destruct (AdapterContext.getCurrentSession _ _)
        |destruct (AdapterContext.getCurrentWindow _ _)
        |destruct (AdapterContext.getCurrentPane _ _)];
        intros [=]; congruence.
    + unfold bind at 1.
      destruct (BookmarkStore.add _ _ _ _ _ _ d) as [[e | bk] d1]; [discriminate |].
      unfold bind, ret.
      destruct (BookmarkStore.list_ d1) as [[e | l'] d2]; discriminate.
Qed.

Section SlotOrLabelFacts.

Variable parseInt : string -> option Z.

Lemma asSlot_positive target n : Commands.asSlot parseInt target = Some n -> 0 < n.
Proof.
  unfold Commands.asSlot. destruct (parseInt target) as [s |]; [| discriminate].
  destruct (decide (s > 0)); [| discriminate]. intros [= <-]. lia.
Qed.

Lemma find_label_first (l : list Bookmark) (lbl : string) idx b :
  l !! idx = Some b -> label b = lbl ->
  (forall j b', (j < idx)%nat -> l !! j = Some b' -> label b' <> lbl) ->
  find (fun b => label b = lbl) l = Some b.
Proof.
  intros Hb Hl Hfirst. apply find_Some. exists idx. repeat split; [assumption.. |].
  intros j y Hj Hlt. by apply (Hfirst j y).
Qed.

End SlotOrLabelFacts.

(** [cmdRemove] addresses by slot whenever the argument parses as a
    positive integer, and by label only otherwise. With slot [n] in range it
    removes slot [n] and reports that bookmark's label; with [n] beyond the
    last slot it exits with "bookmark not found" and leaves the file alone,
    even when a bookmark is labelled with that very number. By label, with
    distinct ids, it removes the first bookmark carrying the label; with no
    such bookmark it exits the same way. *)
Theorem cmdRemove_slot_or_label (parseInt : string -> option Z) (target : string)
  (d : Disk) (l : list Bookmark) :
  fst (BookmarkStore.list_ d) = inr l -> writable d = true ->
  (forall n, Commands.asSlot parseInt target = Some n ->
     (forall b, l !! Z.to_nat (n - 1) = Some b ->
        Commands.cmdRemove parseInt target d
        = (inr (Completed (label b)), saved (delete (Z.to_nat (n - 1)) l))) /\
     (Z.of_nat (length l) < n ->
        Commands.cmdRemove parseInt target d
        = (inr (Exit 1 (String.append "Error: bookmark not found: " target)), d))) /\
  (Commands.asSlot parseInt target = None ->
     (forall idx b,
        l !! idx = Some b -> label b = target ->
        (forall j b', (j < idx)%nat -> l !! j = Some b' -> label b' <> target) ->
        NoDup (id <$> l) ->
        Commands.cmdRemove parseInt target d
        = (inr (Completed target), saved (delete idx l))) /\
     ((forall j b', l !! j = Some b' -> label b' <> target) ->
        Commands.cmdRemove parseInt target d
        = (inr (Exit 1 (String.append "Error: bookmark not found: " target)), d))).
Proof.
  intros Hl Hw. split.
  - intros n Hn. pose proof (asSlot_positive _ _ _ Hn) as Hpos. split.
    + intros b Hb. pose proof (lookup_lt_Some _ _ _ Hb) as Hlt.
      unfold Commands.cmdRemove. rewrite Hn. unfold bind at 1 2.
      rewrite (getBySlot_run d l) by assumption.
      destruct (decide _) as [_ | Hout]; [| lia]. rewrite Hb.
      unfold bind at 1. rewrite (removeBySlot_run d l) by (assumption || lia).
      reflexivity.
    + intros Hbig.
      unfold Commands.cmdRemove. rewrite Hn. unfold bind at 1 2.
      rewrite (getBySlot_run d l) by assumption.
      destruct (decide _) as [Hin | _]; [lia |]. reflexivity.
  - intros Hn. split.
    + intros idx b Hb Hlbl Hfirst Hnd.
      unfold Commands.cmdRemove. rewrite Hn. unfold bind at 1 2.
      rewrite (getByLabel_run d l) by assumption.
      rewrite (find_label_first l target idx b) by assumption.
      unfold bind at 1.
      rewrite (remove_run d l (id b) idx b) by auto using list_find_id.
      reflexivity.
    + intros Hnone.
      unfold Commands.cmdRemove. rewrite Hn. unfold bind at 1 2.
      rewrite (getByLabel_run d l) by assumption.
      rewrite (proj2 (find_None (fun b => label b = target) l) Hnone).
      reflexivity.
Qed.

(** [cmdRename], with distinct ids, relabels exactly the bookmark its
    argument designates (by slot when the argument parses as a positive
    integer, else the first with that label) and reports the old and the new
    label. Its only error exit is "bookmark not found", and that exit leaves
    the file as it was: "failed to rename bookmark" is never reported. *)
Theorem cmdRename_designated (parseInt : string -> option Z)
  (target newLabel : string) (d : Disk) (l : list Bookmark) :
  fst (BookmarkStore.list_ d) = inr l ->
  (forall idx b,
     writable d = true -> NoDup (id <$> l) -> l !! idx = Some b ->
     (Commands.asSlot parseInt target = Some (Z.of_nat idx + 1) \/
      (Commands.asSlot parseInt target = None /\ label b = target /\
       forall j b', (j < idx)%nat -> l !! j = Some b' -> label b' <> target)) ->
     Commands.cmdRename parseInt target newLabel d
     = (inr (Completed (label b, newLabel)),
        saved (<[idx := setLabel b newLabel]> l))) /\
  (forall code message d',
     Commands.cmdRename parseInt target newLabel d = (inr (Exit code message), d') ->
     message = String.append "Error: bookmark not found: " target /\ d' = d).
Proof.
  intros Hl. split.
  - intros idx b Hw Hnd Hb Hsel.
    pose proof (lookup_lt_Some _ _ _ Hb) as Hlt.
    assert (Hget :
      (match Commands.asSlot parseInt target with
       | Some slot => BookmarkStore.getBySlot slot
       | None => BookmarkStore.getByLabel target
       end) d = (inr (Some b), d)).
    { destruct Hsel as [-> | (-> & Hlbl & Hfirst)].
      - rewrite (getBySlot_run d l) by assumption.
        destruct (decide _) as [_ | Hout]; [| lia].
        replace (Z.to_nat (Z.of_nat idx + 1 - 1)) with idx by lia.
        by rewrite Hb.
      - rewrite (getByLabel_run d l) by assumption.
        by rewrite (find_label_first l target idx b). }
    unfold Commands.cmdRename. unfold bind at 1. rewrite Hget.
    unfold bind at 1.
    rewrite (rename_run d l (id b) newLabel idx b) by auto using list_find_id.
    reflexivity.
  - intros code message d'.
    unfold Commands.cmdRename. unfold bind at 1.
    assert (Hget : exists ob,
      (match Commands.asSlot parseInt target with
       | Some slot => BookmarkStore.getBySlot slot
       | None => BookmarkStore.getByLabel target
       end) d = (inr ob, d) /\
      forall b, ob = Some b -> exists idx, l !! idx = Some b).
    { destruct (Commands.asSlot parseInt target) as [n |].
      - rewrite (getBySlot_run d l) by assumption. eexists. split; [reflexivity |].
        intros b. destruct (decide _); [| discriminate]. eauto.
      - rewrite (getByLabel_run d l) by assumption. eexists. split; [reflexivity |].
        intros b Hf. by apply find_lookup in Hf. }
    destruct Hget as (ob & -> & Hob).
    destruct ob as [b |]; [| by intros [= _ <- <-]].
    destruct (Hob b eq_refl) as [idx Hb].
    destruct (list_find (fun b' => id b' = id b) l) as [[fidx x] |] eqn:Hfind.
    2: { apply list_find_None in Hfind. rewrite Forall_forall in Hfind.
         destruct (Hfind b); [by eapply list_elem_of_lookup_2 | reflexivity]. }
    unfold bind at 1, BookmarkStore.rename, bind, ret.
    rewrite (list_read_current d l Hl). cbn [items]. rewrite Hfind.
    destruct (BookmarkStore.write _ d) as [[e | []] d1]; discriminate.
Qed.

(** * Properties of the adapter's parsers *)

Section SplitJoin.

Variable sep : Ascii.ascii.

Lemma split_not_nil s : split sep s <> [].
Proof.
  destruct s as [| c rest]; simpl; [discriminate |].
  destruct (Ascii.eqb c sep); [discriminate |].
  destruct (split sep rest); discriminate.
Qed.

Lemma split_app a rest :
  lacks sep a -> split sep (String.append a (String sep rest)) = a :: split sep rest.
Proof.
  induction a as [| c a IH]; simpl.
  - intros _. by rewrite Ascii.eqb_refl.
  - intros [Hc Ha]. rewrite (proj2 (Ascii.eqb_neq c sep) Hc).
    by rewrite (IH Ha).
Qed.

Lemma split_lacks a : lacks sep a -> split sep a = [a].
Proof.
  induction a as [| c a IH]; simpl; [reflexivity |].
  intros [Hc Ha]. rewrite (proj2 (Ascii.eqb_neq c sep) Hc).
  by rewrite (IH Ha).
Qed.

Lemma split_join_fields parts :
  parts <> [] -> Forall (lacks sep) parts -> split sep (join sep parts) = parts.
Proof.
  induction parts as [| p rest IH]; [contradiction |].
  intros _ Hall. apply Forall_cons in Hall as [Hp Hrest].
  destruct rest as [| q rest].
  - simpl. by apply split_lacks.
  - change (join sep (p :: q :: rest))
      with (String.append p (String sep (join sep (q :: rest)))).
    rewrite split_app by assumption. f_equal. by apply IH.
Qed.

Lemma join_split s : join sep (split sep s) = s.
Proof.
  induction s as [| c rest IH]; simpl; [reflexivity |].
  pose proof (split_not_nil rest) as Hne.
  destruct (Ascii.eqb c sep) eqn:Hc.
  - apply Ascii.eqb_eq in Hc as ->.
    destruct (split sep rest) as [| h t]; [contradiction |].
    change (join sep (EmptyString :: h :: t))
      with (String.append EmptyString (String sep (join sep (h :: t)))).
    cbn [String.append]. by rewrite IH.
  - destruct (split sep rest) as [| h t]; [contradiction |].
    destruct t as [| h2 t'].
    + cbn [join] in *. by rewrite IH.
    + change (join sep (String c h :: h2 :: t'))
        with (String c (String.append h (String sep (join sep (h2 :: t'))))).
      f_equal. exact IH.
Qed.

Lemma split_fields_lack s : Forall (lacks sep) (split sep s).
Proof.
  induction s as [| c rest IH]; simpl.
  - by repeat constructor.
  - destruct (Ascii.eqb c sep) eqn:Hc.
    + by constructor.
    + apply Ascii.eqb_neq in Hc.
      destruct (split sep rest) as [| h t]; [by repeat constructor |].
      apply Forall_cons in IH as [Hh Ht]. by repeat constructor.
Qed.

End SplitJoin.

(** Splitting and joining on a separator are inverse to each other:
    joining the fields of a string gives the string back, and splitting the
    join of fields gives the fields back exactly when no field contains the
    separator. *)
Theorem split_join_roundtrip (sep : Ascii.ascii) :
  (forall s, join sep (split sep s) = s) /\
  (forall s, Forall (lacks sep) (split sep s) /\ split sep s <> []) /\
  (forall parts, parts <> [] -> Forall (lacks sep) parts ->
     split sep (join sep parts) = parts).
Proof.
  repeat apply conj.
  - apply join_split.
  - intros s. split; [apply split_fields_lack | apply split_not_nil].
  - apply split_join_fields.
Qed.

Lemma split_join_roundtrip_witness :
  split fieldSeparator (join fieldSeparator ["$1"; "work"; "2"; "1"; "1700000000"])
  = ["$1"; "work"; "2"; "1"; "1700000000"].
Proof.
  destruct (split_join_roundtrip fieldSeparator) as (_ & _ & H).
  apply H; [discriminate |].
  repeat (apply Forall_cons_2); try apply Forall_nil_2;
    simpl; repeat split; discriminate.
Defined.

Section ParserFacts.

Variable parseInt : string -> Z.

Lemma isEmpty_false s : s <> "" -> isEmpty s = false.
Proof. intros Hs. unfold isEmpty. by apply String.eqb_neq. Qed.





End ParserFacts.

(** Parsing undoes formatting: a line made of the fields of an entity,
    joined by ["|"], parses to that entity, provided no field contains
    ["|"] and the ids (for a session, also the name) are not empty. A window
    name and a working directory may be empty. *)
Theorem parse_format_roundtrip (parseInt : string -> Z) :
  (forall sid name wc att cr,
     Forall (lacks fieldSeparator) [sid; name; wc; att; cr] ->
     sid <> "" -> name <> "" ->
     parseSession parseInt (join fieldSeparator [sid; name; wc; att; cr])
     = Some (TmuxSession.mk sid name (parseInt wc) (String.eqb att "1")
               (parseInt cr))) /\
  (forall wid idx name sid sname act cnt,
     Forall (lacks fieldSeparator) [wid; idx; name; sid; sname; act; cnt] ->
     wid <> "" -> sid <> "" ->
     parseWindow parseInt (join fieldSeparator [wid; idx; name; sid; sname; act; cnt])
     = Some (TmuxWindow.mk wid (parseInt idx) name sid sname (String.eqb act "1")
               (parseInt cnt))) /\
  (forall pid pidx wid widx wname sid sname act dir cmd,
     Forall (lacks fieldSeparator)
       [pid; pidx; wid; widx; wname; sid; sname; act; dir; cmd] ->
     pid <> "" -> wid <> "" -> sid <> "" ->
     parsePane parseInt
       (join fieldSeparator [pid; pidx; wid; widx; wname; sid; sname; act; dir; cmd])
     = Some (TmuxPane.mk pid (parseInt pidx) wid (parseInt widx) wname sid sname
               (String.eqb act "1") dir cmd)).
Proof.
  repeat apply conj.
  - intros sid name wc att cr Hall Hsid Hname. unfold parseSession.
    rewrite split_join_fields by (assumption || discriminate).
    by rewrite !isEmpty_false.
  - intros wid idx name sid sname act cnt Hall Hwid Hsid. unfold parseWindow.
    rewrite split_join_fields by (assumption || discriminate).
    by rewrite !isEmpty_false.
  - intros pid pidx wid widx wname sid sname act dir cmd Hall Hpid Hwid Hsid.
    unfold parsePane.
    rewrite split_join_fields by (assumption || discriminate).
    by rewrite !isEmpty_false.
Qed.

Lemma parse_format_roundtrip_witness :
  parseWindow (fun _ => 0) (join fieldSeparator ["@1"; "0"; ""; "$1"; "work"; "1"; "2"])
  = Some (TmuxWindow.mk "@1" 0 "" "$1" "work" true 0).
Proof.
  destruct (parse_format_roundtrip (fun _ => 0)) as (_ & H & _).
  apply (H "@1" "0" "" "$1" "work" "1" "2"); [| discriminate..].
  repeat (apply Forall_cons_2); try apply Forall_nil_2;
    simpl; repeat split; discriminate.
Defined.



(** ** Scenarios of the command layer *)

(** [tmux-tui add api] in pane [%9] of window [@4]. *)
Lemma cmdAdd_then_resolve_witness :
  label Scenario.added = "api" /\ kind Scenario.added = KWindow /\
  exists t,
    resolveBookmark Scenario.added Sample.workState = Resolved MId t /\
    t = target Scenario.added.
Proof.
  apply (cmdAdd_then_resolve Sample.env Scenario.inside Sample.workState "api" KWindow
           Sample.threeDisk
           (saved [Sample.first; Sample.second; Sample.third; Scenario.added])
           Scenario.added 4).
  - exact workState_ids.
  - reflexivity.
Defined.

Lemma cmdAdd_store_effect_witness :
  fst (BookmarkStore.list_
         (saved [Sample.first; Sample.second; Sample.third; Scenario.added]))
  = inr ([Sample.first; Sample.second; Sample.third] ++ [Scenario.added]) /\
  4 = Z.of_nat (length [Sample.first; Sample.second; Sample.third]) + 1 /\
  fst (BookmarkStore.getBySlot 4
         (saved [Sample.first; Sample.second; Sample.third; Scenario.added]))
  = inr (Some Scenario.added).
Proof.
  destruct (cmdAdd_store_effect Sample.env Scenario.inside Sample.workState "api"
              KWindow Sample.threeDisk
              (saved [Sample.first; Sample.second; Sample.third; Scenario.added])
              [Sample.first; Sample.second; Sample.third] eq_refl) as [H _].
  apply (H Scenario.added 4 eq_refl).
  intros j b' Hj.
  destruct j as [| [| [| j]]]; simpl in Hj; [| | | discriminate];
    injection Hj as <-; discriminate.
Defined.

(** [tmux-tui rm 5] with two bookmarks, the second labelled ["5"]: slot 5
    is looked up, the label is not. *)
Lemma cmdRemove_slot_or_label_witness :
  Commands.cmdRemove Scenario.parseDecimal "5" Scenario.numberedDisk
  = (inr (Exit 1 (String.append "Error: bookmark not found: " "5")),
     Scenario.numberedDisk).
Proof.
  destruct (cmdRemove_slot_or_label Scenario.parseDecimal "5" Scenario.numberedDisk
              [Sample.first; Sample.plain "id-5" "5"] eq_refl eq_refl) as [H _].
  destruct (H 5 eq_refl) as [_ H2].
  apply H2. simpl. lia.
Defined.

(** [tmux-tui rename second two]. *)
Lemma cmdRename_designated_witness :
  Commands.cmdRename Scenario.parseDecimal "second" "two" Sample.threeDisk
  = (inr (Completed (label Sample.second, "two")),
     saved (<[1%nat := setLabel Sample.second "two"]>
              [Sample.first; Sample.second; Sample.third])).
Proof.
  destruct (cmdRename_designated Scenario.parseDecimal "second" "two" Sample.threeDisk
              [Sample.first; Sample.second; Sample.third] eq_refl) as [H _].
  apply (H 1%nat Sample.second eq_refl).
  - apply (bool_decide_unpack _). vm_compute. exact I.
  - reflexivity.
  - right. repeat split.
    intros j b' Hlt Hj. assert (j = 0%nat) as -> by lia.
    injection Hj as <-. discriminate.
Defined.
